(** * news-trend-analyser: the scraper pipeline of [scraper.py]

    A shallow embedding of [parse_article], [scrape_site], [save_outputs]
    and [main], with the libraries they call (newspaper, datetime, dateutil,
    pandas, json, time) kept behind explicit oracles and a small model of
    [datetime], followed by the properties of the pipeline. *)

From Stdlib Require Import ZArith String Ascii List Lia DecimalString.
From stdpp Require Import base gmap strings list.
Import ListNotations.

Local Open Scope string_scope.
Local Open Scope Z_scope.

#[local] Set Warnings "-clear-no-such-hyp".

(** ** Decimal formatting, as Python's [%d] and [%0wd] *)

Module Fmt.

Definition decimal (n : Z) : string :=
  if n <? 0 then "-" ++ NilZero.string_of_uint (N.to_uint (Z.to_N (- n)))
  else NilZero.string_of_uint (N.to_uint (Z.to_N n)).

Fixpoint zeros (k : nat) : string :=
  match k with
  | O => ""
  | S k' => "0" ++ zeros k'
  end.

(** [%0wd] for a non-negative [n]: at least [w] digits, padded on the left. *)
Definition padded (w : nat) (n : Z) : string :=
  let s := decimal n in
  zeros (w - String.length s) ++ s.

End Fmt.

(** ** The part of [datetime] the scraper uses

    A [datetime] is held as Python compares and subtracts it: the number of
    microseconds of wall-clock time since 0001-01-01T00:00:00, together with
    the value of [utcoffset()] in seconds ([None] for a naive value).  The
    calendar fields are recovered with the algorithms of [datetime.py]
    ([_ymd2ord], [_ord2ymd]). *)

Module Datetime.

Definition is_leap (y : Z) : bool :=
  (y mod 4 =? 0) && (negb (y mod 100 =? 0) || (y mod 400 =? 0)).

Definition days_before_year (year : Z) : Z :=
  let y := year - 1 in
  y * 365 + y / 4 - y / 100 + y / 400.

(** [_DAYS_IN_MONTH] and [_DAYS_BEFORE_MONTH], indexed from 1. *)
Definition DAYS_IN_MONTH (m : Z) : Z :=
  match m with
  | 1 => 31 | 2 => 28 | 3 => 31 | 4 => 30 | 5 => 31 | 6 => 30
  | 7 => 31 | 8 => 31 | 9 => 30 | 10 => 31 | 11 => 30 | 12 => 31
  | _ => 0
  end.

Definition DAYS_BEFORE_MONTH (m : Z) : Z :=
  match m with
  | 1 => 0 | 2 => 31 | 3 => 59 | 4 => 90 | 5 => 120 | 6 => 151
  | 7 => 181 | 8 => 212 | 9 => 243 | 10 => 273 | 11 => 304 | 12 => 334
  | _ => 0
  end.

Definition days_before_month (year month : Z) : Z :=
  DAYS_BEFORE_MONTH month + (if (2 <? month) && is_leap year then 1 else 0).

Definition ymd2ord (year month day : Z) : Z :=
  days_before_year year + days_before_month year month + day.

Definition DI400Y : Z := 146097.
Definition DI100Y : Z := 36524.
Definition DI4Y : Z := 1461.

Definition ord2ymd (ordinal : Z) : Z * Z * Z :=
  let n := ordinal - 1 in
  let n400 := n / DI400Y in
  let n := n mod DI400Y in
  let year := n400 * 400 + 1 in
  let n100 := n / DI100Y in
  let n := n mod DI100Y in
  let n4 := n / DI4Y in
  let n := n mod DI4Y in
  let n1 := n / 365 in
  let n := n mod 365 in
  let year := year + n100 * 100 + n4 * 4 + n1 in
  if (n1 =? 4) || (n100 =? 4) then (year - 1, 12, 31)
  else
    let leapyear := (n1 =? 3) && (negb (n4 =? 24) || (n100 =? 3)) in
    let month := Z.shiftr (n + 50) 5 in
    let preceding :=
      DAYS_BEFORE_MONTH month + (if (2 <? month) && leapyear then 1 else 0) in
    if n <? preceding then
      let month' := month - 1 in
      let preceding' :=
        preceding
        - (DAYS_IN_MONTH month' + (if (month' =? 2) && leapyear then 1 else 0)) in
      (year, month', n - preceding' + 1)
    else (year, month, n - preceding + 1).

Definition US_PER_SECOND : Z := 1000000.
Definition US_PER_DAY : Z := 86400 * US_PER_SECOND.

(** [date.max.toordinal()], the ordinal of 9999-12-31. *)
Definition MAXORDINAL : Z := 3652059.

Record datetime := mk_datetime {
  wall : Z;             (* microseconds since 0001-01-01T00:00:00, wall clock *)
  tzinfo : option Z     (* utcoffset() in seconds; None for a naive value *)
}.

(** The wall-clock values [datetime] can hold: years 1 to 9999. *)
Definition representable (w : Z) : bool :=
  (0 <=? w) && (w <? MAXORDINAL * US_PER_DAY).

(** [datetime(year, month, day, hour, minute, second, microsecond, tzinfo)]. *)
Definition make (year month day hour minute second microsecond : Z)
    (tz : option Z) : datetime :=
  {| wall := (ymd2ord year month day - 1) * US_PER_DAY
             + ((hour * 60 + minute) * 60 + second) * US_PER_SECOND
             + microsecond;
     tzinfo := tz |}.

Definition year_month_day (d : datetime) : Z * Z * Z :=
  ord2ymd (wall d / US_PER_DAY + 1).
Definition hour (d : datetime) : Z := (wall d mod US_PER_DAY) / (3600 * US_PER_SECOND).
Definition minute (d : datetime) : Z := (wall d / (60 * US_PER_SECOND)) mod 60.
Definition second (d : datetime) : Z := (wall d / US_PER_SECOND) mod 60.
Definition microsecond (d : datetime) : Z := wall d mod US_PER_SECOND.

(** [timezone.utc]. *)
Definition utc : Z := 0.

(** [d.replace(tzinfo=tz)]: same wall clock, new zone. *)
Definition replace_tzinfo (d : datetime) (tz : Z) : datetime :=
  {| wall := wall d; tzinfo := Some tz |}.

(** The instant an aware value denotes: microseconds since
    0001-01-01T00:00:00 UTC. *)
Definition instant (w off : Z) : Z := w - off * US_PER_SECOND.

(** [_format_offset]: sign, hours and minutes, seconds only when non-zero. *)
Definition format_offset (off : Z) : string :=
  let sign := if off <? 0 then "-" else "+" in
  let a := Z.abs off in
  let hh := a / 3600 in
  let mm := (a mod 3600) / 60 in
  let ss := a mod 60 in
  sign ++ Fmt.padded 2 hh ++ ":" ++ Fmt.padded 2 mm
  ++ (if ss =? 0 then "" else ":" ++ Fmt.padded 2 ss).

(** The part of [isoformat()] before the offset. *)
Definition isoformat_wall (d : datetime) : string :=
  let '(y, m, dd) := year_month_day d in
  Fmt.padded 4 y ++ "-" ++ Fmt.padded 2 m ++ "-" ++ Fmt.padded 2 dd ++ "T"
  ++ Fmt.padded 2 (hour d) ++ ":" ++ Fmt.padded 2 (minute d) ++ ":"
  ++ Fmt.padded 2 (second d)
  ++ (if microsecond d =? 0 then "" else "." ++ Fmt.padded 6 (microsecond d)).

Definition isoformat (d : datetime) : string :=
  isoformat_wall d
  ++ match tzinfo d with
     | None => ""
     | Some off => format_offset off
     end.

(** [strftime('%Y%m%d_%H%M')], the only format the scraper asks for. *)
Definition strftime_Ymd_HM (d : datetime) : string :=
  let '(y, m, dd) := year_month_day d in
  Fmt.padded 4 y ++ Fmt.padded 2 m ++ Fmt.padded 2 dd ++ "_"
  ++ Fmt.padded 2 (hour d) ++ Fmt.padded 2 (minute d).

End Datetime.

Import Datetime.

(** ** Python values and exceptions *)

(** The exceptions the scraper can meet.  Both are subclasses of
    [Exception]: the first is the one [scrape_site] names, the second stands
    for every other class ([cls] is its name).  Signals that are not an
    [Exception] (a keyboard interrupt, an exit of the interpreter) end the
    process and are not part of the model. *)
Inductive exn :=
  | ArticleException (msg : string)
  | OtherException (cls msg : string).

Definition exn_str (e : exn) : string :=
  match e with
  | ArticleException msg => msg
  | OtherException _ msg => msg
  end.

(** What [article.publish_date] may hold: [None], a [datetime], or a value
    of another type. *)
Inductive pyvalue :=
  | PyNone
  | PyDatetime (d : datetime)
  | PyOther (repr : string).

(** [isinstance(v, datetime)]. *)
Definition isinstance_datetime (v : pyvalue) : bool :=
  match v with
  | PyDatetime _ => true
  | _ => false
  end.

(** [x or d] for a string that may be [None]. *)
Definition or_str (x : option string) (d : string) : string :=
  match x with
  | Some s => if String.eqb s "" then d else s
  | None => d
  end.

(** [x or d] for a list that may be [None]. *)
Definition or_list {A} (x : option (list A)) (d : list A) : list A :=
  match x with
  | Some (a :: l) => a :: l
  | _ => d
  end.

(** Truth value of a string: [not s] is [negb (truthy s)]. *)
Definition truthy (s : string) : bool := negb (String.eqb s "").

(** [l[:n]], with Python's meaning of a negative bound. *)
Definition slice_to {A} (l : list A) (n : Z) : list A :=
  if 0 <=? n then firstn (Z.to_nat n) l
  else firstn (Nat.sub (length l) (Z.to_nat (- n))) l.

Definition newline : string := String (ascii_of_nat 10) EmptyString.

(** ** The newspaper objects, as oracles

    An [Article] records what the library will answer for one candidate:
    whether [download()], [parse()] and [nlp()] raise, and the attributes
    read afterwards. *)
Record Article := mk_Article {
  art_url : string;
  art_elapsed : Z;                        (* microseconds spent in download() *)
  art_download : option exn;              (* what download() raises *)
  art_parse : option exn;                 (* what parse() raises *)
  art_nlp : option exn;                   (* what nlp() raises *)
  art_title : option string;
  art_text : option string;
  art_authors : option (list string);
  art_top_image : option string;          (* None: attribute absent or None *)
  art_movies : option (list string);      (* None: attribute absent or None *)
  art_publish_date : pyvalue;
  art_source_url : option string;         (* None: attribute absent *)
  art_keywords : list string;             (* article.keywords after nlp() *)
  art_summary : string                    (* article.summary after nlp() *)
}.

(** The dictionary [parse_article] returns. *)
Record row := mk_row {
  title : string;
  url : string;
  text : string;
  authors : list string;
  top_image : string;
  movies : list string;
  publish_date : option string;
  source_url : string;
  keywords : list string;
  summary : string;
  download_date : string
}.

(** ** The world: clock, file system, standard output, network trace *)

Inductive event :=
  | EvBuild (site : string)               (* newspaper.build(site) *)
  | EvDownload (u : string)               (* article.download() *)
  | EvSleep (us : Z).                     (* time.sleep, in microseconds *)

Record world := mk_world {
  clock : Z;                              (* UTC instant, in microseconds *)
  files : gmap string string;
  stdout : list string;
  events : list event
}.

Definition tick (us : Z) (w : world) : world :=
  {| clock := clock w + us; files := files w; stdout := stdout w;
     events := events w |}.
Definition emit (ev : event) (w : world) : world :=
  {| clock := clock w; files := files w; stdout := stdout w;
     events := (events w ++ [ev])%list |}.
Definition put_line (s : string) (w : world) : world :=
  {| clock := clock w; files := files w; stdout := stdout w ++ [s];
     events := events w |}.
Definition put_file (path content : string) (w : world) : world :=
  {| clock := clock w; files := <[path := content]> (files w);
     stdout := stdout w; events := events w |}.

(** ** A state-and-exception monad

    A computation takes the world and gives back a value or a raised
    exception, with the world as it has left it: what was done before an
    exception stays done. *)
Inductive result (A : Type) :=
  | Ok (a : A)
  | Raise (e : exn).
Arguments Ok {A} a.
Arguments Raise {A} e.

Definition M (A : Type) : Type := world -> result A * world.

Definition ret {A} (a : A) : M A := fun w => (Ok a, w).
Definition raise {A} (e : exn) : M A := fun w => (Raise e, w).
Definition bind {A B} (c : M A) (k : A -> M B) : M B :=
  fun w =>
    match c w with
    | (Ok a, w') => k a w'
    | (Raise e, w') => (Raise e, w')
    end.

(** [try: body except Exception as e: handler]. *)
Definition try_except {A} (body : M A) (handler : exn -> M A) : M A :=
  fun w =>
    match body w with
    | (Ok a, w') => (Ok a, w')
    | (Raise e, w') => handler e w'
    end.

Declare Scope py_scope.
Delimit Scope py_scope with py.
Notation "x <- c ;; k" := (bind c (fun x => k))
  (at level 100, c at next level, k at level 200, right associativity)
  : py_scope.
Notation "c ;; k" := (bind c (fun _ => k))
  (at level 100, k at level 200, right associativity) : py_scope.
Local Open Scope py_scope.

(** [for x in l: s = body(x, s)]. *)
Fixpoint for_each {A S} (l : list A) (s : S) (body : A -> S -> M S) : M S :=
  match l with
  | [] => ret s
  | x :: l' => s' <- body x s ;; for_each l' s' body
  end.

Definition effect (f : world -> world) : M unit := fun w => (Ok tt, f w).
Definition print (s : string) : M unit := effect (put_line s).
Definition lift_opt (o : option exn) : M unit :=
  match o with
  | Some e => raise e
  | None => ret tt
  end.

(** ** Configuration *)

Definition NEWS_SITES : list string :=
  [ "https://g1.globo.com";
    "https://www.bbc.com/portuguese";
    "https://www1.folha.uol.com.br";
    "https://www.terra.com.br";
    "https://oglobo.globo.com";
    "https://www.uol.com.br" ].

Definition MAX_PER_SITE : Z := 40.

(** [SLEEP_BETWEEN = 0.5] seconds, held in microseconds. *)
Definition SLEEP_BETWEEN : Z := 500000.

Definition TARGET_TZ : string := "America/Sao_Paulo".

(** A [newspaper.Source] after [build()]: the candidates it found. *)
Record Source := mk_Source { articles : list Article }.

Definition OverflowError : exn :=
  OtherException "OverflowError" "date value out of range".

(** ** The environment of a run

    Everything the scraper asks of its libraries and of the machine. *)
Class Env := mk_Env {
  (** [newspaper.build(url, ...)]: the built source, or the exception
      raised. *)
  newspaper_build : string -> result Source;
  (** [tz.gettz(name)], as the offset in seconds the zone has at a UTC
      instant. *)
  gettz : string -> Z -> Z;
  (** The zone of the machine: its offset at a UTC instant, and the offset
      it gives to a naive wall-clock value. *)
  local_offset_at : Z -> Z;
  local_offset_of_wall : Z -> Z;
  (** [pd.DataFrame(rows).to_csv(index=False)] and
      [json.dumps(r, ensure_ascii=False)]. *)
  to_csv : list row -> string;
  json_dumps : row -> string;
  (** What writing the file at a path raises, if anything. *)
  write_error : string -> option exn
}.

(** ** The scraper *)

Section Scraper.

Context {E : Env}.

(** [d.astimezone(tz)]: the same instant, on the wall clock of [tz].  Both
    the step to UTC and the step to the zone raise [OverflowError] outside
    years 1 to 9999. *)
Definition astimezone (d : datetime) (tz : Z -> Z) : M datetime :=
  let off :=
    match tzinfo d with
    | Some off => off
    | None => local_offset_of_wall (wall d)
    end in
  let u := instant (wall d) off in
  if negb (representable u) then raise OverflowError
  else
    let w' := u + tz u * US_PER_SECOND in
    if negb (representable w') then raise OverflowError
    else ret {| wall := w'; tzinfo := Some (tz u) |}.

(** [datetime.now(tz=tz)]. *)
Definition datetime_now_tz (tz : Z -> Z) : M datetime :=
  fun w =>
    (Ok {| wall := clock w + tz (clock w) * US_PER_SECOND;
           tzinfo := Some (tz (clock w)) |}, w).

(** [datetime.now()]: naive, on the wall clock of the machine. *)
Definition datetime_now : M datetime :=
  fun w =>
    (Ok {| wall := clock w + local_offset_at (clock w) * US_PER_SECOND;
           tzinfo := None |}, w).

Definition build_source (url : string) : M Source :=
  effect (emit (EvBuild url)) ;;
  match newspaper_build url with
  | Ok src => ret src
  | Raise e => raise e
  end.

Definition download (article : Article) : M unit :=
  effect (emit (EvDownload (art_url article))) ;;
  effect (tick (art_elapsed article)) ;;
  lift_opt (art_download article).

Definition parse (article : Article) : M unit := lift_opt (art_parse article).
Definition nlp (article : Article) : M unit := lift_opt (art_nlp article).

Definition sleep (us : Z) : M unit :=
  effect (emit (EvSleep us)) ;; effect (tick us).

(** Lines 55-62 of [parse_article]: keywords and summary, or empty values. *)
Definition enrich (article : Article) : M (list string * string) :=
  try_except
    (nlp article ;;
     ret (art_keywords article, art_summary article))
    (fun _ => ret ([], "")).

(** Lines 68-76 of [parse_article]: the publication date in the target
    zone. *)
Definition normalize (pub_date : pyvalue) : M (option string) :=
  match pub_date with
  | PyDatetime pub_date =>
      let pub_date :=
        match tzinfo pub_date with
        | None => replace_tzinfo pub_date utc
        | Some _ => pub_date
        end in
      pub_date <- astimezone pub_date (gettz TARGET_TZ) ;;
      ret (Some (isoformat pub_date))
  | _ => ret None
  end.

Definition parse_article (article : Article) : M row :=
  download article ;;
  parse article ;;
  ks <- enrich article ;;
  let authors := or_list (art_authors article) [] in
  let top_image := or_str (art_top_image article) "" in
  let movies := or_list (art_movies article) [] in
  pub_date_iso <- normalize (art_publish_date article) ;;
  now <- datetime_now_tz (gettz TARGET_TZ) ;;
  ret {| title := or_str (art_title article) "";
         url := art_url article;
         text := or_str (art_text article) "";
         authors := authors;
         top_image := top_image;
         movies := movies;
         publish_date := pub_date_iso;
         source_url :=
           match art_source_url article with
           | Some s => s
           | None => ""
           end;
         keywords := fst ks;
         summary := snd ks;
         download_date := isoformat now |}.

(** The body of the loop of [scrape_site] for one candidate, [out] being
    the list collected so far. *)
Definition scrape_one (art : Article) (out : list row) : M (list row) :=
  try_except
    (data <- parse_article art ;;
     if negb (truthy (title data)) && negb (truthy (text data)) then ret out
     else
       let out := (out ++ [data])%list in
       sleep SLEEP_BETWEEN ;;
       ret out)
    (fun e =>
       match e with
       | ArticleException _ => ret out
       | OtherException _ _ => ret out
       end).

(** [tqdm] only draws a progress bar around the loop; it is left out. *)
Definition scrape_site (url : string) (max_items : Z) : M (list row) :=
  let out : list row := [] in
  built <- try_except
             (src <- build_source url ;; ret (Some src))
             (fun e =>
                print ("[WARN] Falha ao buildar " ++ url ++ ": " ++ exn_str e) ;;
                ret None) ;;
  match built with
  | None => ret out
  | Some src =>
      match articles src with
      | [] =>
          print ("[INFO] Sem artigos encontrados em " ++ url ++ ".") ;;
          ret out
      | _ =>
          let articles := slice_to (articles src) max_items in
          for_each articles out scrape_one
      end
  end.

Definition write_file (path content : string) : M unit :=
  match write_error path with
  | Some e => raise e
  | None => effect (put_file path content)
  end.

Definition save_outputs (rows : list row) (base_name : string) : M unit :=
  match rows with
  | [] => print "[INFO] Nada para salvar."
  | _ =>
      let csv_path := base_name ++ ".csv" in
      write_file csv_path (to_csv rows) ;;
      print ("[OK] CSV salvo em: " ++ csv_path) ;;
      let jsonl_path := base_name ++ ".jsonl" in
      write_file jsonl_path
        (String.concat "" (map (fun r => json_dumps r ++ newline) rows)) ;;
      print ("[OK] JSONL salvo em: " ++ jsonl_path)
  end.

(** The body of the first loop of [main] for one site, [all_rows] being
    the rows collected so far. *)
Definition collect_one (max_per_site : Z) (site : string)
    (all_rows : list row) : M (list row) :=
  rows <- scrape_site site max_per_site ;;
  ret (all_rows ++ rows)%list.

(** Lines 155-158 of [main]: the rows of every site, in order. *)
Definition collect (sites : list string) (max_per_site : Z) : M (list row) :=
  for_each sites [] (collect_one max_per_site).

(** Lines 161-167 of [main]: one pass over [all_rows] with the set [seen]
    and the list [deduped]. *)
Definition dedup_step (st : gset string * list row) (r : row)
    : gset string * list row :=
  if decide (url r ∈ st.1) then st
  else ({[ url r ]} ∪ st.1, (st.2 ++ [r])%list).

Definition dedup (all_rows : list row) : list row :=
  (fold_left dedup_step all_rows (∅, [])).2.

Definition main_on (sites : list string) (max_per_site : Z) : M unit :=
  all_rows <- collect sites max_per_site ;;
  let deduped := dedup all_rows in
  print ("[INFO] Total coletado: " ++ Fmt.decimal (Z.of_nat (length all_rows))
         ++ " | Após dedup: " ++ Fmt.decimal (Z.of_nat (length deduped))) ;;
  now <- datetime_now ;;
  save_outputs deduped ("news_out_" ++ strftime_Ymd_HM now).

Definition main : M unit := main_on NEWS_SITES MAX_PER_SITE.

End Scraper.

(** ** Deduplication as a recursion on the list

    [keep seen l] is what the loop of [main] appends to [deduped] while it
    walks [l] having already seen the urls in [seen]. *)
Fixpoint keep (seen : gset string) (l : list row) : list row :=
  match l with
  | [] => []
  | r :: l' =>
      if decide (url r ∈ seen) then keep seen l'
      else r :: keep ({[ url r ]} ∪ seen) l'
  end.

(** The first row of [l] whose url is [u]. *)
Definition first_with_url (u : string) (l : list row) : option row :=
  List.find (fun r => bool_decide (url r = u)) l.

Definition urls (l : list row) : list string := map url l.


(** ** Names for the steps of the pipeline

    The intermediate worlds and values the statements below speak of. *)

Section Steps.

Context {E : Env}.

(** The world after [download()]: one more request, and the time it took. *)
Definition after_download (article : Article) (w : world) : world :=
  tick (art_elapsed article) (emit (EvDownload (art_url article)) w).

(** The row assembled from an article, given the outcome of the enrichment
    and of the normalizer, and the clock. *)
Definition assemble (article : Article) (ks : list string * string)
    (iso : option string) (w : world) : row :=
  {| title := or_str (art_title article) "";
     url := art_url article;
     text := or_str (art_text article) "";
     authors := or_list (art_authors article) [];
     top_image := or_str (art_top_image article) "";
     movies := or_list (art_movies article) [];
     publish_date := iso;
     source_url := match art_source_url article with
                   | Some s => s
                   | None => ""
                   end;
     keywords := ks.1;
     summary := ks.2;
     download_date :=
       isoformat {| wall := clock w + gettz TARGET_TZ (clock w) * US_PER_SECOND;
                    tzinfo := Some (gettz TARGET_TZ (clock w)) |} |}.

(** What lines 55-62 leave in [keywords] and [summary]. *)
Definition enriched (article : Article) : list string * string :=
  match art_nlp article with
  | None => (art_keywords article, art_summary article)
  | Some _ => ([], "")
  end.

Definition usable (data : row) : bool :=
  truthy (title data) || truthy (text data).

Definition after_sleep (w : world) : world :=
  tick SLEEP_BETWEEN (emit (EvSleep SLEEP_BETWEEN) w).

(** The instant a publication date denotes, a naive value being read as
    UTC. *)
Definition instant_of (d : datetime) : Z :=
  instant (wall d) (match tzinfo d with
                    | Some off => off
                    | None => utc
                    end).

(** The same instant on the wall clock of the target zone. *)
Definition converted (d : datetime) : datetime :=
  let u := instant_of d in
  {| wall := u + gettz TARGET_TZ u * US_PER_SECOND;
     tzinfo := Some (gettz TARGET_TZ u) |}.

(** The publication dates the normalizer can convert: those whose instant
    and whose wall clock in the target zone both lie in years 1 to 9999. *)
Definition normalizable (v : pyvalue) : bool :=
  match v with
  | PyDatetime d =>
      representable (instant_of d) && representable (wall (converted d))
  | _ => true
  end.

(** The candidates [parse_article] returns a row for. *)
Definition extracted (article : Article) : bool :=
  match art_download article, art_parse article with
  | None, None => normalizable (art_publish_date article)
  | _, _ => false
  end.

(** The candidates whose row is appended to [out]. *)
Definition accepted (article : Article) : bool :=
  extracted article
  && (truthy (or_str (art_title article) "")
      || truthy (or_str (art_text article) "")).

(** The requests and pauses of the loop of [scrape_site] over [l]. *)
Definition requests (l : list Article) : list event :=
  flat_map
    (fun a =>
       EvDownload (art_url a)
       :: (if accepted a then [EvSleep SLEEP_BETWEEN] else []))
    l.

(** The candidates [scrape_site] walks through. *)
Definition candidates (site : string) (max_items : Z) : list Article :=
  match newspaper_build site with
  | Ok src => slice_to (articles src) max_items
  | Raise _ => []
  end.

End Steps.

(** ** Variants of an article and of a row *)

(** The same article with another outcome of [nlp()]. *)
Definition with_nlp (o : option exn) (a : Article) : Article :=
  {| art_url := art_url a; art_elapsed := art_elapsed a;
     art_download := art_download a; art_parse := art_parse a;
     art_nlp := o;
     art_title := art_title a; art_text := art_text a;
     art_authors := art_authors a; art_top_image := art_top_image a;
     art_movies := art_movies a; art_publish_date := art_publish_date a;
     art_source_url := art_source_url a;
     art_keywords := art_keywords a; art_summary := art_summary a |}.

(** The same row with the enrichment left out. *)
Definition without_enrichment (r : row) : row :=
  {| title := title r; url := url r; text := text r; authors := authors r;
     top_image := top_image r; movies := movies r;
     publish_date := publish_date r; source_url := source_url r;
     keywords := []; summary := ""; download_date := download_date r |}.

(** ** A small run, for the concrete statements *)

Module Demo.

Definition article (u : string) (t b : option string) (pub : pyvalue)
    : Article :=
  {| art_url := u; art_elapsed := 250000;
     art_download := None; art_parse := None; art_nlp := None;
     art_title := t; art_text := b;
     art_authors := Some ["Ana"]; art_top_image := None;
     art_movies := None; art_publish_date := pub;
     art_source_url := Some "https://a.example";
     art_keywords := ["chuva"; "sul"]; art_summary := "Resumo." |}.

(** 2024-01-01T10:00:00, naive. *)
Definition ten_o_clock : datetime := make 2024 1 1 10 0 0 0 None.

(** 0001-01-01T00:00:00, naive: three hours west of it is year 0. *)
Definition first_instant : datetime := make 1 1 1 0 0 0 0 None.

Definition good : Article :=
  article "https://a.example/1" (Some "Chuva no sul") (Some "Texto.")
          (PyDatetime ten_o_clock).
Definition blank : Article :=
  article "https://a.example/2" (Some "") None PyNone.
Definition broken : Article :=
  {| art_url := "https://a.example/3"; art_elapsed := 250000;
     art_download := None;
     art_parse := Some (ArticleException "Article `download()` failed");
     art_nlp := None;
     art_title := None; art_text := None;
     art_authors := None; art_top_image := None;
     art_movies := None; art_publish_date := PyNone;
     art_source_url := None;
     art_keywords := []; art_summary := "" |}.
Definition short : Article :=
  with_nlp (Some (ArticleException "You must `parse()` an article first!"))
           (article "https://a.example/4" (Some "Oi") (Some "") PyNone).
Definition odd_date : Article :=
  article "https://a.example/5" (Some "Data") None (PyOther "'ontem'").
Definition no_url : Article :=
  article "" (Some "Sem endereco") (Some "Texto.") PyNone.
Definition again : Article :=
  article "https://a.example/1" (Some "Chuva no sul, de novo") None PyNone.

(** A machine in UTC-3 with the target zone at UTC-3, and four sites. *)
Definition env : Env :=
  {| newspaper_build := fun site =>
       if String.eqb site "https://a.example"
       then Ok {| articles := [blank; good; broken; short] |}
       else if String.eqb site "https://b.example"
       then Ok {| articles := [again; odd_date] |}
       else if String.eqb site "https://c.example"
       then Ok {| articles := [no_url] |}
       else if String.eqb site "https://d.example"
       then Ok {| articles := [] |}
       else Raise (OtherException "ConnectionError" "unreachable");
     gettz := fun _ _ => -10800;
     local_offset_at := fun _ => -10800;
     local_offset_of_wall := fun _ => -10800;
     to_csv := fun rows => String.concat newline (map url rows);
     json_dumps := fun r => url r;
     write_error := fun _ => None |}.

(** A row with a url and a title, and nothing else. *)
Definition record (u t : string) : row :=
  {| title := t; url := u; text := ""; authors := []; top_image := "";
     movies := []; publish_date := None; source_url := ""; keywords := [];
     summary := ""; download_date := "2024-01-02T09:00:00-03:00" |}.

(** Site A finds u1 and u2, site B finds u2 and u3. *)
Definition two_sites : list row :=
  [record "u1" "A1"; record "u2" "A2"; record "u2" "B2"; record "u3" "B3"].

(** 2024-01-02T12:00:00 UTC, nothing written, nothing printed. *)
Definition start : world :=
  {| clock := wall (make 2024 1 2 12 0 0 0 None);
     files := ∅; stdout := []; events := [] |}.

End Demo.

(** ** Names for the statements about traces and files *)

Definition is_build (ev : event) : bool :=
  match ev with
  | EvBuild _ => true
  | _ => false
  end.

Definition is_download (ev : event) : bool :=
  match ev with
  | EvDownload _ => true
  | _ => false
  end.

Definition is_sleep (ev : event) : bool :=
  match ev with
  | EvSleep _ => true
  | _ => false
  end.

(** The lines of a text, each one ended by a newline; a last line without
    one counts when it is not empty. *)
Fixpoint lines_from (cur s : string) : list string :=
  match s with
  | EmptyString => if String.eqb cur "" then [] else [cur]
  | String c s' =>
      if Ascii.eqb c (ascii_of_nat 10) then cur :: lines_from "" s'
      else lines_from (cur ++ String c EmptyString) s'
  end.

Definition lines (s : string) : list string := lines_from "" s.

(** A text with no newline in it. *)
Fixpoint one_line (s : string) : bool :=
  match s with
  | EmptyString => true
  | String c s' => negb (Ascii.eqb c (ascii_of_nat 10)) && one_line s'
  end.

Section Outputs.

Context {E : Env}.

(** What [save_outputs] writes into the line-delimited file. *)
Definition jsonl_content (rows : list row) : string :=
  String.concat "" (map (fun r => json_dumps r ++ newline) rows).

(** The base name [main] builds from the clock of a world. *)
Definition base_name_at (w : world) : string :=
  "news_out_"
  ++ strftime_Ymd_HM
       {| wall := clock w + local_offset_at (clock w) * US_PER_SECOND;
          tzinfo := None |}.

(** The requests and pauses of a run over [sites]. *)
Definition run_trace (sites : list string) (max_per_site : Z) : list event :=
  flat_map
    (fun site => EvBuild site :: requests (candidates site max_per_site))
    sites.

(** The line [scrape_site] prints, if any. *)
Definition site_message (site : string) : list string :=
  match newspaper_build site with
  | Raise e =>
      ["[WARN] Falha ao buildar " ++ site ++ ": " ++ exn_str e]
  | Ok src =>
      match articles src with
      | [] => ["[INFO] Sem artigos encontrados em " ++ site ++ "."]
      | _ => []
      end
  end.

End Outputs.

(** ** Two more machines for the small run: one where no file can be
    written, one where only the line-delimited file of the default base
    name cannot. *)

Module DemoDisk.

Definition denied : exn := OtherException "PermissionError" "denied".

Definition with_write_error (f : string -> option exn) : Env :=
  {| newspaper_build := @newspaper_build Demo.env;
     gettz := @gettz Demo.env;
     local_offset_at := @local_offset_at Demo.env;
     local_offset_of_wall := @local_offset_of_wall Demo.env;
     to_csv := @to_csv Demo.env;
     json_dumps := @json_dumps Demo.env;
     write_error := f |}.

Definition read_only : Env := with_write_error (fun _ => Some denied).

Definition no_jsonl : Env :=
  with_write_error
    (fun p => if String.eqb p "news_out.jsonl" then Some denied else None).



End DemoDisk.
(** ** Properties of the deduplication pass *)

Section Dedup.

Lemma fold_dedup_step (l : list row) (seen : gset string) (ded : list row) :
  fold_left dedup_step l (seen, ded)
  = (list_to_set (urls l) ∪ seen, (ded ++ keep seen l)%list).
Proof.
  revert seen ded.
  induction l as [|r l IH]; intros seen ded; simpl.
  - rewrite app_nil_r. f_equal. set_solver.
  - unfold dedup_step at 2. simpl.
    destruct (decide (url r ∈ seen)) as [Hin|Hnin].
    + rewrite IH. f_equal. set_solver.
    + rewrite IH. rewrite <- app_assoc. simpl. f_equal. set_solver.
Qed.

Lemma dedup_keep (l : list row) : dedup l = keep ∅ l.
Proof. unfold dedup. rewrite fold_dedup_step. reflexivity. Qed.

Lemma keep_elem (l : list row) (seen : gset string) (r : row) :
  r ∈ keep seen l -> r ∈ l ∧ url r ∉ seen.
Proof.
  revert seen.
  induction l as [|x l IH]; intros seen; simpl.
  - intros H. inversion H.
  - destruct (decide (url x ∈ seen)) as [Hin|Hnin].
    + intros H. destruct (IH _ H) as [H1 H2]. split; [by right | done].
    + intros H. apply elem_of_cons in H as [->|H].
      * split; [by left | done].
      * destruct (IH _ H) as [H1 H2]. split; [by right | set_solver].
Qed.

Lemma keep_NoDup (l : list row) (seen : gset string) :
  NoDup (urls (keep seen l)).
Proof.
  revert seen.
  induction l as [|x l IH]; intros seen; simpl.
  - constructor.
  - destruct (decide (url x ∈ seen)) as [Hin|Hnin]; [apply IH|].
    simpl. constructor; [|apply IH].
    intros Hx. apply list_elem_of_fmap in Hx as (r & Hr1 & Hr2).
    apply keep_elem in Hr2 as [_ Hr2]. set_solver.
Qed.

Lemma keep_first (l : list row) (seen : gset string) (u : string) :
  first_with_url u (keep seen l)
  = if decide (u ∈ seen) then None else first_with_url u l.
Proof.
  revert seen.
  induction l as [|x l IH]; intros seen; simpl.
  - by destruct (decide (u ∈ seen)).
  - destruct (decide (url x ∈ seen)) as [Hin|Hnin].
    + rewrite IH. destruct (decide (u ∈ seen)) as [Hu|Hu]; [done|].
      unfold first_with_url at 2. simpl.
      rewrite bool_decide_eq_false_2; [done | congruence].
    + unfold first_with_url. simpl.
      destruct (bool_decide (url x = u)) eqn:E.
      * apply bool_decide_eq_true_1 in E. subst u.
        by rewrite decide_False.
      * apply bool_decide_eq_false_1 in E.
        fold (first_with_url u (keep ({[url x]} ∪ seen) l)).
        rewrite IH.
        destruct (decide (u ∈ seen)) as [Hu|Hu].
        -- rewrite decide_True; [done | set_solver].
        -- rewrite decide_False; [done | set_solver].
Qed.

Lemma keep_sublist (l : list row) (seen : gset string) :
  sublist (keep seen l) l.
Proof.
  revert seen.
  induction l as [|x l IH]; intros seen; simpl.
  - constructor.
  - destruct (decide (url x ∈ seen)).
    + apply sublist_cons. apply IH.
    + apply sublist_skip. apply IH.
Qed.

Lemma keep_fixed (l : list row) (seen : gset string) :
  NoDup (urls l) -> (forall r, r ∈ l -> url r ∉ seen) -> keep seen l = l.
Proof.
  revert seen.
  induction l as [|x l IH]; intros seen Hnd Hseen; simpl; [done|].
  simpl in Hnd. apply NoDup_cons in Hnd as [Hx Hnd].
  rewrite decide_False by (apply Hseen; by left).
  f_equal. apply IH; [done|].
  intros r Hr. specialize (Hseen r ltac:(by right)).
  assert (url r ≠ url x).
  { intros E. apply Hx. rewrite <- E. apply list_elem_of_fmap. eauto. }
  set_solver.
Qed.

(** C1: the deduplicated list has no two rows with the same url, holds for
    every url of the concatenated sequence exactly the first row of that
    sequence with this url, and keeps the rows in the order of the
    sequence. *)
Theorem dedup_first_seen_wins (all_rows : list row) :
  NoDup (urls (dedup all_rows))
  ∧ (forall u, first_with_url u (dedup all_rows) = first_with_url u all_rows)
  ∧ (forall r, r ∈ all_rows ->
        exists r', r' ∈ dedup all_rows ∧ url r' = url r
                   ∧ first_with_url (url r) all_rows = Some r')
  ∧ sublist (dedup all_rows) all_rows.
Proof.
  rewrite dedup_keep.
  assert (Hfirst : forall u,
             first_with_url u (keep ∅ all_rows) = first_with_url u all_rows).
  { intros u. rewrite keep_first. by rewrite decide_False by set_solver. }
  split; [apply keep_NoDup|].
  split; [exact Hfirst|].
  split; [|apply keep_sublist].
  intros r Hr.
  destruct (first_with_url (url r) all_rows) as [r'|] eqn:E.
  - exists r'. 
    pose proof E as E'. rewrite <- Hfirst in E'.
    unfold first_with_url in E, E'.
    apply find_some in E' as [Hin' Hu'].
    apply bool_decide_eq_true_1 in Hu'.
    split; [by apply list_elem_of_In|]. split; [done|done].
  - exfalso. unfold first_with_url in E.
    apply list_elem_of_In in Hr.
    pose proof (find_none _ _ E r Hr) as Hf. simpl in Hf.
    by rewrite bool_decide_eq_true_2 in Hf.
Qed.

(** C7: the pass is a function of its input, and a second pass over its own
    output changes nothing. *)
Theorem dedup_deterministic_idempotent (l1 l2 : list row) :
  (l1 = l2 -> dedup l1 = dedup l2)
  ∧ dedup (dedup l1) = dedup l1.
Proof.
  split; [by intros ->|].
  rewrite !dedup_keep.
  apply keep_fixed; [apply keep_NoDup | set_solver].
Qed.

End Dedup.

(** ** Properties of the pipeline *)

Section Pipeline.

Context {E : Env}.

(** The target zone, [tz.gettz(TARGET_TZ)]. *)
Local Abbreviation target := (gettz TARGET_TZ).

(** *** The normalizer leaves the world alone *)

Lemma astimezone_world (d : datetime) (tz : Z -> Z) (w : world) :
  (astimezone d tz w).2 = w.
Proof.
  unfold astimezone.
  destruct (negb (representable _)); [done|].
  by destruct (negb (representable _)).
Qed.

Lemma astimezone_result (d : datetime) (tz : Z -> Z) (w1 w2 : world) :
  (astimezone d tz w1).1 = (astimezone d tz w2).1.
Proof.
  unfold astimezone.
  destruct (negb (representable _)); [done|].
  by destruct (negb (representable _)).
Qed.

Lemma normalize_world (v : pyvalue) (w : world) : (normalize v w).2 = w.
Proof.
  destruct v as [|d|s]; try done.
  unfold normalize, bind.
  pose proof (astimezone_world
                match tzinfo d with
                | Some _ => d
                | None => replace_tzinfo d utc
                end target w) as Hw.
  destruct (astimezone _ _ w) as [[d'|e] w']; simpl in *; by subst.
Qed.

Lemma normalize_result (v : pyvalue) (w1 w2 : world) :
  (normalize v w1).1 = (normalize v w2).1.
Proof.
  destruct v as [|d|s]; try done.
  unfold normalize, bind.
  pose proof (astimezone_result
                match tzinfo d with
                | Some _ => d
                | None => replace_tzinfo d utc
                end target w1 w2) as Hr.
  destruct (astimezone _ _ w1) as [[d1|e1] w1'];
    destruct (astimezone _ _ w2) as [[d2|e2] w2']; simpl in *; congruence.
Qed.

Lemma normalize_spec (v : pyvalue) (w : world) :
  normalize v w
  = match v with
    | PyDatetime d =>
        if normalizable v then (Ok (Some (isoformat (converted d))), w)
        else (Raise OverflowError, w)
    | _ => (Ok None, w)
    end.
Proof.
  destruct v as [|d|s]; try done.
  unfold normalize, normalizable, converted, instant_of, astimezone, bind.
  destruct d as [wl [off|]]; simpl.
  - destruct (representable (instant wl off)); simpl; [|done].
    by destruct (representable (instant wl off + _)).
  - destruct (representable (instant wl utc)); simpl; [|done].
    by destruct (representable (instant wl utc + _)).
Qed.

(** *** [parse_article], step by step *)

Lemma enrich_spec (article : Article) (w : world) :
  enrich article w = (Ok (enriched article), w).
Proof.
  unfold enrich, enriched, try_except, nlp, bind, lift_opt.
  by destruct (art_nlp article).
Qed.

Lemma parse_article_spec (article : Article) (w : world) :
  parse_article article w
  = let w1 := after_download article w in
    match art_download article with
    | Some e => (Raise e, w1)
    | None =>
        match art_parse article with
        | Some e => (Raise e, w1)
        | None =>
            match (normalize (art_publish_date article) w1).1 with
            | Ok iso => (Ok (assemble article (enriched article) iso w1), w1)
            | Raise e => (Raise e, w1)
            end
        end
    end.
Proof.
  unfold parse_article, download, parse, bind at 1 2 3, effect, lift_opt.
  simpl. fold (after_download article w).
  destruct (art_download article) as [e|]; [done|]. simpl.
  unfold bind at 1. simpl.
  destruct (art_parse article) as [e|]; [done|]. simpl.
  unfold bind at 1. rewrite enrich_spec.
  unfold bind at 1.
  pose proof (normalize_world (art_publish_date article)
                (after_download article w)) as Hw.
  destruct (normalize _ _) as [[iso|e] w2]; simpl in *; subst w2; done.
Qed.

(** *** One turn of the loop of [scrape_site] *)

Lemma scrape_one_spec (art : Article) (out : list row) (w : world) :
  scrape_one art out w
  = match parse_article art w with
    | (Ok data, w1) =>
        if usable data then (Ok (out ++ [data])%list, after_sleep w1)
        else (Ok out, w1)
    | (Raise e, w1) => (Ok out, w1)
    end.
Proof.
  unfold scrape_one, try_except, bind at 1.
  destruct (parse_article art w) as [[data|e] w1].
  - unfold usable.
    destruct (truthy (title data)), (truthy (text data)); simpl; try done.
  - by destruct e.
Qed.

Lemma parse_article_extracted (article : Article) (w : world) :
  extracted article = true ->
  exists iso,
    parse_article article w
    = (Ok (assemble article (enriched article) iso (after_download article w)),
       after_download article w).
Proof.
  intros Hx. rewrite parse_article_spec. simpl. unfold extracted in Hx.
  destruct (art_download article); [done|].
  destruct (art_parse article); [done|].
  rewrite normalize_spec.
  destruct (art_publish_date article) as [|d|s];
    [simpl; eauto | rewrite Hx; simpl; eauto | simpl; eauto].
Qed.

Lemma parse_article_not_extracted (article : Article) (w : world) :
  extracted article = false ->
  exists e, parse_article article w = (Raise e, after_download article w).
Proof.
  intros Hx. rewrite parse_article_spec. simpl. unfold extracted in Hx.
  destruct (art_download article); [eauto|].
  destruct (art_parse article); [eauto|].
  rewrite normalize_spec.
  destruct (art_publish_date article) as [|d|s]; try done.
  rewrite Hx. simpl. eauto.
Qed.

Lemma scrape_one_accepted (art : Article) (out : list row) (w : world) :
  accepted art = true ->
  exists data,
    parse_article art w = (Ok data, after_download art w)
    ∧ usable data = true
    ∧ url data = art_url art
    ∧ scrape_one art out w
      = (Ok (out ++ [data])%list, after_sleep (after_download art w)).
Proof.
  intros Ha. unfold accepted in Ha.
  apply andb_prop in Ha as [Hx Hu].
  destruct (parse_article_extracted art w Hx) as [iso Hp].
  eexists. split; [exact Hp|].
  rewrite scrape_one_spec, Hp. unfold usable. simpl.
  by rewrite Hu.
Qed.

Lemma scrape_one_skipped (art : Article) (out : list row) (w : world) :
  accepted art = false ->
  scrape_one art out w = (Ok out, after_download art w).
Proof.
  intros Ha. rewrite scrape_one_spec. unfold accepted in Ha.
  destruct (extracted art) eqn:Hx.
  - destruct (parse_article_extracted art w Hx) as [iso ->].
    unfold usable. simpl. simpl in Ha. by rewrite Ha.
  - by destruct (parse_article_not_extracted art w Hx) as [e ->].
Qed.

(** The loop: it never raises, appends one usable row per accepted
    candidate, in order, and leaves the requests and pauses of [requests]
    behind. *)
Lemma scrape_loop (l : list Article) (out : list row) (w : world) :
  exists new w',
    for_each l out scrape_one w = (Ok (out ++ new)%list, w')
    ∧ events w' = (events w ++ requests l)%list
    ∧ files w' = files w
    ∧ stdout w' = stdout w
    ∧ Forall2 (fun a r => url r = art_url a ∧ usable r = true)
              (filter (fun a => accepted a = true) l) new.
Proof.
  revert out w.
  induction l as [|a l IH]; intros out w; simpl.
  - exists [], w. rewrite !app_nil_r. repeat split. constructor.
  - unfold bind.
    destruct (accepted a) eqn:Ha.
    + destruct (scrape_one_accepted a out w Ha) as (data & Hp & Hu & Hurl & ->).
      destruct (IH (out ++ [data])%list (after_sleep (after_download a w)))
        as (new & w' & -> & Hev & Hf & Hs & Hall).
      exists (data :: new), w'.
      rewrite <- app_assoc. simpl. repeat split; try done.
      * rewrite Hev. simpl. by rewrite <- !app_assoc.
      * rewrite filter_cons_True by done. by constructor.
    + rewrite (scrape_one_skipped a out w Ha).
      destruct (IH out (after_download a w))
        as (new & w' & -> & Hev & Hf & Hs & Hall).
      exists new, w'. repeat split; try done.
      * rewrite Hev. simpl. by rewrite <- !app_assoc.
      * rewrite filter_cons_False; [done|]. by rewrite Ha.
Qed.

(** *** [scrape_site] *)

Lemma scrape_site_spec (site : string) (max_items : Z) (w : world) :
  scrape_site site max_items w
  = let w0 := emit (EvBuild site) w in
    match newspaper_build site with
    | Raise e =>
        (Ok [],
         put_line ("[WARN] Falha ao buildar " ++ site ++ ": " ++ exn_str e) w0)
    | Ok src =>
        match articles src with
        | [] =>
            (Ok [],
             put_line ("[INFO] Sem artigos encontrados em " ++ site ++ ".") w0)
        | _ => for_each (slice_to (articles src) max_items) [] scrape_one w0
        end
    end.
Proof.
  unfold scrape_site, build_source, try_except, bind at 1 2 3, effect.
  simpl.
  destruct (newspaper_build site) as [src|e]; simpl; [|done].
  by destruct (articles src).
Qed.

Lemma slice_to_nil {A} (n : Z) : slice_to (@nil A) n = [].
Proof. unfold slice_to. destruct (0 <=? n); by rewrite firstn_nil. Qed.

Lemma scrape_site_total (site : string) (max_items : Z) (w : world) :
  exists out w',
    scrape_site site max_items w = (Ok out, w')
    ∧ files w' = files w
    ∧ Forall2 (fun a r => url r = art_url a ∧ usable r = true)
              (filter (fun a => accepted a = true) (candidates site max_items))
              out.
Proof.
  rewrite scrape_site_spec. unfold candidates. simpl.
  destruct (newspaper_build site) as [src|e].
  - destruct (articles src) as [|a l] eqn:Hsrc.
    + eexists _, _. split; [done|]. split; [done|].
      rewrite slice_to_nil. constructor.
    + destruct (scrape_loop (slice_to (a :: l) max_items) []
                  (emit (EvBuild site) w))
        as (new & w' & Hrun & _ & Hf & _ & Hall).
      exists new, w'. by repeat split.
  - eexists _, _. split; [done|]. split; [done|]. constructor.
Qed.

Lemma usable_content (r : row) :
  usable r = true -> title r ≠ "" ∨ text r ≠ "".
Proof.
  unfold usable, truthy. intros H.
  apply orb_prop in H as [H|H]; [left|right]; intros Hs; rewrite Hs in H;
    discriminate.
Qed.

(** C2: every row [scrape_site] returns has a title or a text, and a
    candidate extracted with neither is passed over: the list is returned
    as it was. *)
Theorem scrape_site_rows_have_content
    (site : string) (max_items : Z) (w : world) :
  (exists out w',
      scrape_site site max_items w = (Ok out, w')
      ∧ Forall (fun r => title r ≠ "" ∨ text r ≠ "") out)
  ∧ (forall art out data w1,
        parse_article art w = (Ok data, w1) ->
        title data = "" -> text data = "" ->
        scrape_one art out w = (Ok out, w1)).
Proof.
  split.
  - destruct (scrape_site_total site max_items w) as (out & w' & -> & _ & Hall).
    exists out, w'. split; [done|].
    revert Hall. generalize (filter (fun a => accepted a = true)
                               (candidates site max_items)).
    intros l Hall. induction Hall as [|a r l out [_ Hu] _ IH]; constructor.
    + by apply usable_content.
    + exact IH.
  - intros art out data w1 Hp Ht Hb.
    rewrite scrape_one_spec, Hp. unfold usable. by rewrite Ht, Hb.
Qed.

(** *** The rows of all sites *)

Lemma collect_one_spec (max_per_site : Z) (site : string)
    (acc : list row) (w : world) :
  exists rows w1,
    scrape_site site max_per_site w = (Ok rows, w1)
    ∧ collect_one max_per_site site acc w = (Ok (acc ++ rows)%list, w1)
    ∧ files w1 = files w.
Proof.
  destruct (scrape_site_total site max_per_site w)
    as (rows & w1 & Hs & Hf & _).
  exists rows, w1. unfold collect_one, bind. by rewrite Hs.
Qed.

Lemma collect_from (sites : list string) (max_per_site : Z)
    (acc : list row) (w : world) :
  exists rows w',
    for_each sites acc (collect_one max_per_site) w
    = (Ok (acc ++ rows)%list, w')
    ∧ collect sites max_per_site w = (Ok rows, w')
    ∧ files w' = files w.
Proof.
  unfold collect. revert acc w.
  induction sites as [|site sites IH]; intros acc w; simpl.
  - exists [], w. by rewrite app_nil_r.
  - unfold bind.
    destruct (collect_one_spec max_per_site site acc w)
      as (rows1 & w1 & Hs & -> & Hf1).
    destruct (collect_one_spec max_per_site site [] w)
      as (rows1' & w1' & Hs' & -> & _).
    rewrite Hs in Hs'. injection Hs' as <- <-. simpl.
    destruct (IH (acc ++ rows1)%list w1) as (rows2 & w2 & -> & H0 & Hf2).
    destruct (IH rows1 w1) as (rows2' & w2' & -> & H0' & _).
    rewrite H0 in H0'. injection H0' as <- <-.
    exists (rows1 ++ rows2)%list, w2.
    rewrite app_assoc. repeat split. congruence.
Qed.

Lemma collect_cons (site : string) (sites : list string) (max_per_site : Z)
    (w : world) :
  exists rows w1 rest w2,
    scrape_site site max_per_site w = (Ok rows, w1)
    ∧ collect sites max_per_site w1 = (Ok rest, w2)
    ∧ collect (site :: sites) max_per_site w = (Ok (rows ++ rest)%list, w2).
Proof.
  destruct (scrape_site_total site max_per_site w) as (rows & w1 & Hs & _).
  destruct (collect_from sites max_per_site rows w1)
    as (rest & w2 & Hacc & Hc & _).
  exists rows, w1, rest, w2. repeat split; try done.
  unfold collect. simpl. unfold bind.
  destruct (collect_one_spec max_per_site site [] w)
    as (rows' & w1' & Hs' & -> & _).
  rewrite Hs in Hs'. injection Hs' as <- <-. exact Hacc.
Qed.



(** C10: an article whose [publish_date] is not a [datetime] gets a row
    with no publication date, whenever it gets a row, and it gets one when
    [download()] and [parse()] succeed; conversely a row with a publication
    date comes from a [datetime], converted and serialized. *)
Theorem non_datetime_publish_date_is_null (article : Article) (w : world) :
  (isinstance_datetime (art_publish_date article) = false ->
     normalize (art_publish_date article) w = (Ok None, w)
     ∧ (forall r w', parse_article article w = (Ok r, w') ->
                     publish_date r = None)
     ∧ (art_download article = None -> art_parse article = None ->
        exists r w', parse_article article w = (Ok r, w')
                     ∧ publish_date r = None))
  ∧ (forall r w' s,
        parse_article article w = (Ok r, w') -> publish_date r = Some s ->
        exists d, art_publish_date article = PyDatetime d
                  ∧ s = isoformat (converted d)).
Proof.
  split.
  - intros Hnot.
    assert (Hn : forall w0, normalize (art_publish_date article) w0
                            = (Ok None, w0)).
    { intros w0. rewrite normalize_spec.
      by destruct (art_publish_date article). }
    split; [apply Hn|]. split.
    + intros r w' Hp. rewrite parse_article_spec in Hp. simpl in Hp.
      destruct (art_download article); [done|].
      destruct (art_parse article); [done|].
      rewrite Hn in Hp. simpl in Hp. by injection Hp as <- <-.
    + intros Hd Hpa. rewrite parse_article_spec. simpl.
      rewrite Hd, Hpa, Hn. simpl. eauto.
  - intros r w' s Hp Hs. rewrite parse_article_spec in Hp. simpl in Hp.
    destruct (art_download article); [done|].
    destruct (art_parse article); [done|].
    rewrite normalize_spec in Hp.
    destruct (art_publish_date article) as [|d|x]; simpl in Hp.
    + injection Hp as <- <-. done.
    + exists d. split; [done|].
      destruct (representable (instant_of d) && _); simpl in Hp; [|done].
      injection Hp as <- <-. simpl in Hs. congruence.
    + injection Hp as <- <-. done.
Qed.

(** C4: the enrichment step returns a pair whatever [nlp()] does, the empty
    pair when it raises; an article whose [nlp()] raises is treated as the
    same article with a working [nlp()], except that the row has no
    keywords and no summary; so it gets that row whenever the rest of the
    extraction succeeds. *)
Theorem enrichment_never_propagates (article : Article) (w : world) :
  (exists ks, enrich article w = (Ok ks, w))
  ∧ (forall e,
        art_nlp article = Some e ->
        enrich article w = (Ok ([], ""), w)
        ∧ parse_article article w
          = match parse_article (with_nlp None article) w with
            | (Ok r, w') => (Ok (without_enrichment r), w')
            | (Raise e', w') => (Raise e', w')
            end
        ∧ (extracted article = true ->
           exists r w', parse_article article w = (Ok r, w')
                        ∧ keywords r = [] ∧ summary r = "")).
Proof.
  split; [rewrite enrich_spec; eauto|].
  intros e He. split; [|split].
  - rewrite enrich_spec. unfold enriched. by rewrite He.
  - rewrite !parse_article_spec. simpl.
    unfold after_download. simpl.
    destruct (art_download article); [done|].
    destruct (art_parse article); [done|].
    destruct (normalize _ _).1 as [iso|e']; [|done].
    unfold assemble, enriched, without_enrichment. simpl. by rewrite He.
  - intros Hx. destruct (parse_article_extracted article w Hx) as [iso ->].
    eexists _, _. split; [done|].
    unfold assemble, enriched. simpl. by rewrite He.
Qed.


(** *** Requests and pauses *)

Lemma scrape_site_events (site : string) (max_items : Z) (w : world) :
  events (scrape_site site max_items w).2
  = (events w ++ EvBuild site :: requests (candidates site max_items))%list.
Proof.
  rewrite scrape_site_spec. unfold candidates. simpl.
  destruct (newspaper_build site) as [src|e]; [|done].
  destruct (articles src) as [|a l] eqn:Hsrc.
  - by rewrite slice_to_nil.
  - destruct (scrape_loop (slice_to (a :: l) max_items) []
                (emit (EvBuild site) w)) as (new & w' & -> & Hev & _).
    simpl. rewrite Hev. simpl. by rewrite <- app_assoc.
Qed.

(** *** The writer *)

(** C9: for the empty list [save_outputs] writes no file, under no name,
    prints the one line saying so, and returns; the clock and the network
    trace are as they were. *)
Theorem save_outputs_empty (base_name : string) (w : world) :
  exists w',
    save_outputs [] base_name w = (Ok tt, w')
    ∧ files w' = files w
    ∧ files w' !! (base_name ++ ".csv") = files w !! (base_name ++ ".csv")
    ∧ files w' !! (base_name ++ ".jsonl") = files w !! (base_name ++ ".jsonl")
    ∧ stdout w' = (stdout w ++ ["[INFO] Nada para salvar."])%list
    ∧ events w' = events w
    ∧ clock w' = clock w.
Proof.
  exists (put_line "[INFO] Nada para salvar." w). by repeat split.
Qed.

(** The run hands the writer the deduplicated rows of all sites. *)
Lemma main_on_spec (sites : list string) (max_per_site : Z) (w : world) :
  exists all_rows w1,
    collect sites max_per_site w = (Ok all_rows, w1)
    ∧ files w1 = files w
    ∧ main_on sites max_per_site w
      = save_outputs (dedup all_rows)
          ("news_out_"
           ++ strftime_Ymd_HM
                {| wall := clock w1 + local_offset_at (clock w1) * US_PER_SECOND;
                   tzinfo := None |})
          (put_line
             ("[INFO] Total coletado: "
              ++ Fmt.decimal (Z.of_nat (length all_rows))
              ++ " | Após dedup: "
              ++ Fmt.decimal (Z.of_nat (length (dedup all_rows)))) w1).
Proof.
  destruct (collect_from sites max_per_site [] w)
    as (all_rows & w1 & _ & Hc & Hf).
  exists all_rows, w1. split; [done|]. split; [done|].
  unfold main_on, bind at 1. rewrite Hc.
  reflexivity.
Qed.

(** A run that collects nothing creates no file. *)
Lemma main_on_nothing_collected
    (sites : list string) (max_per_site : Z) (w : world) :
  (collect sites max_per_site w).1 = Ok [] ->
  exists w', main_on sites max_per_site w = (Ok tt, w') ∧ files w' = files w.
Proof.
  intros Hnone.
  destruct (main_on_spec sites max_per_site w)
    as (all_rows & w1 & Hc & Hf & ->).
  rewrite Hc in Hnone. injection Hnone as ->.
  eexists. split; [reflexivity|]. exact Hf.
Qed.

End Pipeline.

(** ** The statements at work on the small run *)

Section Concrete.

Existing Instance Demo.env.

(** The end-to-end scenario of two sites sharing u2: three rows, u2 with
    the fields found on site A. *)
Example dedup_two_sites :
  dedup Demo.two_sites
  = [Demo.record "u1" "A1"; Demo.record "u2" "A2"; Demo.record "u3" "B3"].
Proof. vm_compute. reflexivity. Qed.

Lemma dedup_first_seen_wins_witness :
  Demo.record "u2" "B2" ∈ Demo.two_sites
  ∧ exists r', r' ∈ dedup Demo.two_sites
               ∧ url r' = "u2"
               ∧ first_with_url "u2" Demo.two_sites = Some r'.
Proof.
  assert (H : Demo.record "u2" "B2" ∈ Demo.two_sites)
    by (do 2 apply list_elem_of_further; apply list_elem_of_here).
  split; [exact H|].
  exact (proj1 (proj2 (proj2 (dedup_first_seen_wins Demo.two_sites))) _ H).
Defined.

Lemma dedup_deterministic_idempotent_witness :
  Demo.two_sites = Demo.two_sites
  ∧ dedup Demo.two_sites = dedup Demo.two_sites.
Proof.
  split; [reflexivity|].
  apply (proj1 (dedup_deterministic_idempotent Demo.two_sites Demo.two_sites)).
  reflexivity.
Defined.

Lemma scrape_site_rows_have_content_witness :
  let w1 := after_download Demo.blank Demo.start in
  let data := assemble Demo.blank (enriched Demo.blank) None w1 in
  parse_article Demo.blank Demo.start = (Ok data, w1)
  ∧ title data = "" ∧ text data = ""
  ∧ scrape_one Demo.blank [] Demo.start = (Ok [], w1).
Proof.
  intros w1 data.
  assert (Hp : parse_article Demo.blank Demo.start = (Ok data, w1))
    by reflexivity.
  split; [exact Hp|]. split; [reflexivity|]. split; [reflexivity|].
  apply (proj2 (scrape_site_rows_have_content "https://a.example"
                  MAX_PER_SITE Demo.start) Demo.blank [] data w1 Hp);
    reflexivity.
Defined.


Lemma enrichment_never_propagates_witness :
  art_nlp Demo.short
  = Some (ArticleException "You must `parse()` an article first!")
  ∧ extracted Demo.short = true
  ∧ enrich Demo.short Demo.start = (Ok ([], ""), Demo.start)
  ∧ exists r w', parse_article Demo.short Demo.start = (Ok r, w')
                 ∧ keywords r = [] ∧ summary r = "".
Proof.
  assert (H1 : art_nlp Demo.short
               = Some (ArticleException "You must `parse()` an article first!"))
    by reflexivity.
  assert (H2 : extracted Demo.short = true) by reflexivity.
  destruct (proj2 (enrichment_never_propagates Demo.short Demo.start) _ H1)
    as (He & _ & Hrow).
  split; [exact H1|]. split; [exact H2|]. split; [exact He|].
  exact (Hrow H2).
Defined.


Lemma non_datetime_publish_date_is_null_witness :
  isinstance_datetime (art_publish_date Demo.odd_date) = false
  ∧ art_download Demo.odd_date = None
  ∧ art_parse Demo.odd_date = None
  ∧ exists r w', parse_article Demo.odd_date Demo.start = (Ok r, w')
                 ∧ publish_date r = None.
Proof.
  assert (H1 : isinstance_datetime (art_publish_date Demo.odd_date) = false)
    by reflexivity.
  destruct (proj1 (non_datetime_publish_date_is_null Demo.odd_date Demo.start)
              H1) as (_ & _ & Hrow).
  split; [exact H1|]. split; [reflexivity|]. split; [reflexivity|].
  exact (Hrow eq_refl eq_refl).
Defined.


(** C6, on a site with a blank candidate, a good one, one that fails and
    another good one: the pause follows the two rows that are kept and
    nothing else, so the request after the blank candidate and the request
    after the failed one leave without a pause. *)
Theorem no_pause_after_a_skipped_candidate :
  candidates "https://a.example" MAX_PER_SITE
  = [Demo.blank; Demo.good; Demo.broken; Demo.short]
  ∧ events (scrape_site "https://a.example" MAX_PER_SITE Demo.start).2
    = [ EvBuild "https://a.example";
        EvDownload "https://a.example/2";
        EvDownload "https://a.example/1"; EvSleep SLEEP_BETWEEN;
        EvDownload "https://a.example/3";
        EvDownload "https://a.example/4"; EvSleep SLEEP_BETWEEN ].
Proof. split; vm_compute; reflexivity. Qed.

(** The naive first instant of the calendar cannot be shown three hours
    west: the normalizer raises, and the candidate is passed over. *)
Example normalize_out_of_range :
  normalize (PyDatetime Demo.first_instant) Demo.start
  = (Raise OverflowError, Demo.start).
Proof. vm_compute. reflexivity. Qed.

End Concrete.

(** ** More on the deduplication pass *)

Section DedupMore.

Implicit Types (l : list row) (seen : gset string).

Lemma keep_urls l seen :
  list_to_set (urls (keep seen l)) = (list_to_set (urls l) : gset string) ∖ seen.
Proof.
  revert seen.
  induction l as [|x l IH]; intros seen; simpl.
  - set_solver.
  - destruct (decide (url x ∈ seen)) as [Hin|Hnin].
    + rewrite IH. set_solver.
    + simpl. rewrite IH. apply set_eq. intros u.
      destruct (decide (u = url x)) as [->|Hne]; set_solver.
Qed.

Lemma keep_app l1 l2 seen :
  keep seen (l1 ++ l2)
  = (keep seen l1 ++ keep (list_to_set (urls l1) ∪ seen) l2)%list.
Proof.
  revert seen.
  induction l1 as [|x l1 IH]; intros seen; simpl.
  - f_equal. set_solver.
  - destruct (decide (url x ∈ seen)) as [Hin|Hnin].
    + rewrite IH. do 2 f_equal. set_solver.
    + simpl. rewrite IH. do 3 f_equal. set_solver.
Qed.

Lemma keep_keep l seen1 seen2 :
  keep seen1 (keep seen2 l) = keep (seen1 ∪ seen2) l.
Proof.
  revert seen1 seen2.
  induction l as [|x l IH]; intros seen1 seen2; simpl; [done|].
  destruct (decide (url x ∈ seen2)) as [H2|H2].
  - rewrite decide_True by set_solver. apply IH.
  - simpl. destruct (decide (url x ∈ seen1)) as [H1|H1].
    + rewrite decide_True by set_solver. rewrite IH. f_equal. set_solver.
    + rewrite decide_False by set_solver. rewrite IH. do 2 f_equal.
      set_solver.
Qed.

Lemma keep_insert_filter l seen (u : string) :
  keep ({[ u ]} ∪ seen) l = filter (fun x => url x ≠ u) (keep seen l).
Proof.
  revert seen.
  induction l as [|x l IH]; intros seen; simpl; [done|].
  destruct (decide (url x ∈ seen)) as [Hin|Hnin].
  - rewrite decide_True by set_solver. apply IH.
  - destruct (decide (url x = u)) as [Hu|Hu].
    + rewrite decide_True by set_solver.
      rewrite filter_cons_False by (intros H; by apply H).
      rewrite <- IH. f_equal. set_solver.
    + rewrite decide_False by set_solver.
      rewrite filter_cons_True by done.
      rewrite <- IH. do 2 f_equal. set_solver.
Qed.

(** X1.  The rows left are as many as the distinct urls collected, never more
    than the rows collected. *)
Theorem dedup_length_distinct l :
  length (dedup l) = size (list_to_set (urls l) : gset string)
  ∧ (length (dedup l) <= length l)%nat.
Proof.
  rewrite dedup_keep. split.
  - rewrite <- (length_map url (keep ∅ l)). fold (urls (keep ∅ l)).
    rewrite <- (size_list_to_set (C := gset string)) by apply keep_NoDup.
    f_equal. rewrite keep_urls. set_solver.
  - apply sublist_length, keep_sublist.
Qed.

(** X2.  The pass changes its input exactly when a url occurs twice in it. *)
Theorem dedup_fixed_iff l : dedup l = l <-> NoDup (urls l).
Proof.
  rewrite dedup_keep. split.
  - intros H. rewrite <- H. apply keep_NoDup.
  - intros H. apply keep_fixed; [done | set_solver].
Qed.

(** X3.  Rows appended to the collected list never displace the rows before
    them: the pass over [l1 ++ l2] starts with the pass over [l1], goes on
    with the rows of [l2] whose url is new, and gives the same as a pass
    over the two lists deduplicated one by one. *)
Theorem dedup_app l1 l2 :
  dedup (l1 ++ l2)
  = (dedup l1 ++ keep (list_to_set (urls l1)) l2)%list
  ∧ dedup l1 `prefix_of` dedup (l1 ++ l2)
  ∧ dedup (dedup l1 ++ dedup l2) = dedup (l1 ++ l2).
Proof.
  assert (H1 : dedup (l1 ++ l2)
               = (dedup l1 ++ keep (list_to_set (urls l1)) l2)%list).
  { rewrite !dedup_keep, keep_app. do 2 f_equal. set_solver. }
  split; [exact H1|]. split.
  - rewrite H1. by eexists.
  - rewrite H1. rewrite !dedup_keep, keep_app. f_equal.
    + apply keep_fixed; [apply keep_NoDup | set_solver].
    + rewrite keep_keep. f_equal. rewrite keep_urls. set_solver.
Qed.

(** X4.  The pass, one row at a time: the first row stays, and the rows with
    its url are taken out of what the pass leaves of the others. *)
Theorem dedup_cons_filter (r : row) l :
  dedup (r :: l) = r :: filter (fun x => url x ≠ url r) (dedup l).
Proof.
  rewrite !dedup_keep. simpl.
  rewrite decide_False by set_solver.
  f_equal. apply keep_insert_filter.
Qed.

End DedupMore.

(** ** More on the pipeline *)

Section PipelineMore.

Context {E : Env}.


(** *** One site *)

Lemma length_slice_to {A} (l : list A) (n : Z) :
  0 <= n -> (length (slice_to l n) <= Z.to_nat n)%nat.
Proof.
  intros Hn. unfold slice_to.
  rewrite (proj2 (Z.leb_le 0 n) Hn).
  rewrite length_firstn. lia.
Qed.

Lemma slice_to_prefix {A} (l : list A) (n : Z) : slice_to l n `prefix_of` l.
Proof.
  unfold slice_to.
  destruct (0 <=? n); apply prefix_take.
Qed.

Lemma requests_downloads (l : list Article) :
  filter (fun ev => is_download ev = true) (requests l)
  = map (fun a => EvDownload (art_url a)) l.
Proof.
  induction l as [|a l IH]; [done|].
  unfold requests. simpl. fold (requests l).
  rewrite filter_cons_True by done.
  rewrite filter_app, IH. f_equal.
  by destruct (accepted a).
Qed.

Lemma requests_sleeps (l : list Article) :
  length (filter (fun ev => is_sleep ev = true) (requests l))
  = length (filter (fun a => accepted a = true) l).
Proof.
  induction l as [|a l IH]; [done|].
  unfold requests. simpl. fold (requests l).
  rewrite filter_cons_False by done.
  rewrite filter_app, length_app, IH.
  destruct (accepted a) eqn:Ha.
  - rewrite (filter_cons_True _ a l) by done.
    rewrite filter_cons_True by done. reflexivity.
  - rewrite (filter_cons_False _ a l) by (by rewrite Ha). reflexivity.
Qed.

Lemma requests_builds (l : list Article) :
  filter (fun ev => is_build ev = true) (requests l) = [].
Proof.
  induction l as [|a l IH]; [done|].
  unfold requests. simpl. fold (requests l).
  rewrite filter_cons_False by done.
  rewrite filter_app, IH. by destruct (accepted a).
Qed.

(** X6.  [scrape_site] looks at no more than [max_items] candidates when the
    bound is not negative, all of them among the candidates the site has,
    in the order of the site, and returns no more rows than it looks at. *)
Theorem scrape_site_bounded (site : string) (max_items : Z) (w : world) :
  exists out w',
    scrape_site site max_items w = (Ok out, w')
    ∧ (length out <= length (candidates site max_items))%nat
    ∧ (0 <= max_items ->
       (length out <= Z.to_nat max_items)%nat
       ∧ (length (filter (fun ev => is_download ev = true)
                    (drop (length (events w)) (events w')))
          <= Z.to_nat max_items)%nat)
    ∧ (forall src, newspaper_build site = Ok src ->
                   candidates site max_items `prefix_of` articles src).
Proof.
  destruct (scrape_site_total site max_items w) as (out & w' & Hrun & _ & Hall).
  exists out, w'. split; [exact Hrun|].
  assert (Hlen : (length out <= length (candidates site max_items))%nat).
  { apply Forall2_length in Hall. rewrite <- Hall. apply length_filter. }
  assert (Hcand : 0 <= max_items ->
                  (length (candidates site max_items) <= Z.to_nat max_items)%nat).
  { intros Hn. unfold candidates.
    destruct (newspaper_build site) as [src|e]; [|simpl; lia].
    by apply length_slice_to. }
  split; [exact Hlen|]. split.
  - intros Hn. specialize (Hcand Hn). split; [lia|].
    pose proof (scrape_site_events site max_items w) as Hev.
    rewrite Hrun in Hev. simpl in Hev. rewrite Hev.
    rewrite drop_app_length. rewrite filter_cons_False by done.
    rewrite requests_downloads, length_map. exact Hcand.
  - intros src Hsrc. unfold candidates. rewrite Hsrc. apply slice_to_prefix.
Qed.

(** X7.  The requests of [scrape_site]: one build, then one download for each
    candidate, in order and whatever becomes of it, and as many pauses as
    rows returned. *)
Theorem scrape_site_trace (site : string) (max_items : Z) (w : world) :
  exists out w' new,
    scrape_site site max_items w = (Ok out, w')
    ∧ events w' = (events w ++ new)%list
    ∧ filter (fun ev => is_build ev = true) new = [EvBuild site]
    ∧ filter (fun ev => is_download ev = true) new
      = map (fun a => EvDownload (art_url a)) (candidates site max_items)
    ∧ length (filter (fun ev => is_sleep ev = true) new) = length out
    ∧ head new = Some (EvBuild site).
Proof.
  destruct (scrape_site_total site max_items w) as (out & w' & Hrun & _ & Hall).
  exists out, w', (EvBuild site :: requests (candidates site max_items)).
  pose proof (scrape_site_events site max_items w) as Hev.
  rewrite Hrun in Hev. simpl in Hev.
  split; [exact Hrun|]. split; [exact Hev|]. split; [|split; [|split]].
  - rewrite filter_cons_True by done. by rewrite requests_builds.
  - rewrite filter_cons_False by done. apply requests_downloads.
  - rewrite filter_cons_False by done. rewrite requests_sleeps.
    by apply Forall2_length in Hall.
  - reflexivity.
Qed.

Lemma scrape_site_stdout (site : string) (max_items : Z) (w : world) :
  stdout (scrape_site site max_items w).2
  = (stdout w ++ site_message site)%list.
Proof.
  rewrite scrape_site_spec. unfold site_message. simpl.
  destruct (newspaper_build site) as [src|e]; [|done].
  destruct (articles src) as [|a l] eqn:Hsrc; [done|].
  destruct (scrape_loop (slice_to (a :: l) max_items) []
              (emit (EvBuild site) w)) as (new & w' & -> & _ & _ & Hs & _).
  simpl. rewrite Hs. simpl. by rewrite app_nil_r.
Qed.

(** Everything [scrape_site] does, in one statement. *)
Lemma scrape_site_run (site : string) (max_items : Z) (w : world) :
  exists out w',
    scrape_site site max_items w = (Ok out, w')
    ∧ files w' = files w
    ∧ stdout w' = (stdout w ++ site_message site)%list
    ∧ events w'
      = (events w ++ EvBuild site :: requests (candidates site max_items))%list
    ∧ urls out
      = map art_url
          (filter (fun a => accepted a = true) (candidates site max_items)).
Proof.
  destruct (scrape_site_total site max_items w) as (out & w' & Hrun & Hf & Hall).
  exists out, w'.
  pose proof (scrape_site_events site max_items w) as Hev.
  pose proof (scrape_site_stdout site max_items w) as Hout.
  rewrite Hrun in Hev, Hout. simpl in Hev, Hout.
  repeat split; try done.
  clear Hrun Hev Hout Hf. revert Hall.
  generalize (filter (fun a => accepted a = true) (candidates site max_items)).
  intros l Hall. unfold urls.
  induction Hall as [|a r l out [Hurl _] _ IH]; [done|].
  simpl. congruence.
Qed.

(** X8.  [scrape_site] writes no file, and prints one line only when it has
    nothing to walk through: the build failed, or found no candidate.  A
    site that gives a row prints nothing. *)
Theorem scrape_site_output (site : string) (max_items : Z) (w : world) :
  exists out w',
    scrape_site site max_items w = (Ok out, w')
    ∧ files w' = files w
    ∧ stdout w' = (stdout w ++ site_message site)%list
    ∧ (length (site_message site) <= 1)%nat
    ∧ (out ≠ [] -> stdout w' = stdout w).
Proof.
  destruct (scrape_site_run site max_items w)
    as (out & w' & Hrun & Hf & Hs & _ & Hurls).
  exists out, w'. repeat split; try done.
  - unfold site_message. destruct (newspaper_build site) as [src|e]; [|done].
    destruct (articles src); simpl; lia.
  - intros Hne. rewrite Hs.
    assert (Hmsg : site_message site = []); [|by rewrite Hmsg, app_nil_r].
    unfold site_message, candidates in *.
    destruct (newspaper_build site) as [src|e].
    + destruct (articles src); [|done].
      rewrite slice_to_nil in Hurls. by destruct out.
    + by destruct out.
Qed.

(** X9.  The edges of the bound: with [max_items = 0] the site is still built
    but no candidate is downloaded and the list is empty; with a negative
    bound the candidates are all those of the site but the last
    [- max_items]. *)
Theorem scrape_site_nonpositive_bound
    (site : string) (max_items : Z) (w : world) :
  (max_items = 0 ->
   exists w',
     scrape_site site max_items w = (Ok [], w')
     ∧ events w' = (events w ++ [EvBuild site])%list)
  ∧ (max_items < 0 ->
     forall src,
       newspaper_build site = Ok src ->
       candidates site max_items
       = take (length (articles src) - Z.to_nat (- max_items)) (articles src)).
Proof.
  split.
  - intros ->.
    destruct (scrape_site_run site 0 w)
      as (out & w' & Hrun & _ & _ & Hev & Hurls).
    assert (Hc : candidates site 0 = []).
    { unfold candidates. by destruct (newspaper_build site). }
    rewrite Hc in Hev, Hurls. destruct out; [|done].
    exists w'. by split.
  - intros Hneg src Hsrc. unfold candidates. rewrite Hsrc.
    unfold slice_to.
    by rewrite (proj2 (Z.leb_gt 0 max_items) ltac:(lia)).
Qed.

(** X10.  The filter of [scrape_site] asks for a title or a text, not for both:
    a candidate that is extracted with a title and no text, or a text and
    no title, gets its row and its pause. *)
Theorem row_with_title_or_text_is_kept
    (art : Article) (out : list row) (w : world) :
  extracted art = true ->
  or_str (art_title art) "" ≠ "" ∨ or_str (art_text art) "" ≠ "" ->
  exists data,
    scrape_one art out w
    = (Ok (out ++ [data])%list, after_sleep (after_download art w))
    ∧ title data = or_str (art_title art) ""
    ∧ text data = or_str (art_text art) ""
    ∧ url data = art_url art.
Proof.
  intros Hx Hcontent.
  assert (Ha : accepted art = true).
  { unfold accepted. rewrite Hx. simpl. unfold truthy.
    destruct Hcontent as [H|H].
    - apply orb_true_intro. left. apply negb_true_iff.
      by apply String.eqb_neq.
    - apply orb_true_intro. right. apply negb_true_iff.
      by apply String.eqb_neq. }
  destruct (parse_article_extracted art w Hx) as [iso Hp].
  destruct (scrape_one_accepted art out w Ha) as (data & Hp' & _ & _ & Hone).
  rewrite Hp in Hp'. injection Hp' as <-.
  eexists. split; [exact Hone|]. by repeat split.
Qed.


(** *** All the sites *)

Lemma collect_run (sites : list string) (max_per_site : Z) (w : world) :
  exists all_rows w',
    collect sites max_per_site w = (Ok all_rows, w')
    ∧ files w' = files w
    ∧ stdout w' = (stdout w ++ flat_map site_message sites)%list
    ∧ events w' = (events w ++ run_trace sites max_per_site)%list
    ∧ urls all_rows
      = flat_map
          (fun site =>
             map art_url
               (filter (fun a => accepted a = true)
                  (candidates site max_per_site)))
          sites.
Proof.
  revert w.
  induction sites as [|site sites IH]; intros w.
  - exists [], w. simpl. by rewrite !app_nil_r.
  - destruct (collect_cons site sites max_per_site w)
      as (rows & w1 & rest & w2 & Hs & Hc & Hall).
    destruct (scrape_site_run site max_per_site w)
      as (rows' & w1' & Hs' & Hf1 & Ho1 & He1 & Hu1).
    rewrite Hs in Hs'. injection Hs' as <- <-.
    destruct (IH w1) as (rest' & w2' & Hc' & Hf2 & Ho2 & He2 & Hu2).
    rewrite Hc in Hc'. injection Hc' as <- <-.
    exists (rows ++ rest)%list, w2. split; [exact Hall|].
    split; [congruence|]. split; [|split].
    + rewrite Ho2, Ho1. simpl. by rewrite <- app_assoc.
    + rewrite He2, He1. unfold run_trace. simpl.
      by rewrite <- app_assoc.
    + unfold urls in *. rewrite map_app, Hu1, Hu2. reflexivity.
Qed.

Lemma run_trace_builds (sites : list string) (max_per_site : Z) :
  filter (fun ev => is_build ev = true) (run_trace sites max_per_site)
  = map EvBuild sites.
Proof.
  induction sites as [|site sites IH]; [done|].
  unfold run_trace. simpl. fold (run_trace sites max_per_site).
  rewrite filter_cons_True by done.
  by rewrite filter_app, requests_builds, IH.
Qed.

Lemma run_trace_downloads (sites : list string) (max_per_site : Z) :
  0 <= max_per_site ->
  (length (filter (fun ev => is_download ev = true)
             (run_trace sites max_per_site))
   <= Z.to_nat max_per_site * length sites)%nat.
Proof.
  intros Hn.
  induction sites as [|site sites IH]; [simpl; lia|].
  unfold run_trace. simpl. fold (run_trace sites max_per_site).
  rewrite filter_cons_False by done.
  rewrite filter_app, length_app, requests_downloads, length_map.
  assert ((length (candidates site max_per_site)
           <= Z.to_nat max_per_site)%nat).
  { unfold candidates.
    destruct (newspaper_build site) as [src|e]; [|simpl; lia].
    by apply length_slice_to. }
  lia.
Qed.

(** X12.  The requests of a run: every configured site is built exactly once, in
    the configured order, whether or not an earlier one failed; the trace
    is the traces of the sites one after the other; and with a bound that
    is not negative no more than [max_per_site] downloads go to each
    site. *)
Theorem collect_trace (sites : list string) (max_per_site : Z) (w : world) :
  exists all_rows w' new,
    collect sites max_per_site w = (Ok all_rows, w')
    ∧ events w' = (events w ++ new)%list
    ∧ new = run_trace sites max_per_site
    ∧ filter (fun ev => is_build ev = true) new = map EvBuild sites
    ∧ length (filter (fun ev => is_sleep ev = true) new) = length all_rows
    ∧ (0 <= max_per_site ->
       (length (filter (fun ev => is_download ev = true) new)
        <= Z.to_nat max_per_site * length sites)%nat).
Proof.
  destruct (collect_run sites max_per_site w)
    as (all_rows & w' & Hc & _ & _ & Hev & Hu).
  exists all_rows, w', (run_trace sites max_per_site).
  split; [exact Hc|]. split; [exact Hev|]. split; [done|].
  split; [apply run_trace_builds|]. split; [|apply run_trace_downloads].
  rewrite <- (length_map url all_rows). fold (urls all_rows). rewrite Hu.
  clear. induction sites as [|site sites IH]; [done|].
  unfold run_trace. simpl. fold (run_trace sites max_per_site).
  rewrite filter_cons_False by done.
  rewrite filter_app, !length_app, IH, requests_sleeps, length_map.
  reflexivity.
Qed.

(** X13.  The rows of a run are the accepted candidates of the sites, site after
    site in the configured order and candidate after candidate in the
    order of the site, each with the url of its candidate; collecting
    writes no file and prints only the lines of the sites that gave
    nothing. *)
Theorem collect_rows_in_order
    (sites : list string) (max_per_site : Z) (w : world) :
  exists all_rows w',
    collect sites max_per_site w = (Ok all_rows, w')
    ∧ urls all_rows
      = flat_map
          (fun site =>
             map art_url
               (filter (fun a => accepted a = true)
                  (candidates site max_per_site)))
          sites
    ∧ files w' = files w
    ∧ stdout w' = (stdout w ++ flat_map site_message sites)%list.
Proof.
  destruct (collect_run sites max_per_site w)
    as (all_rows & w' & Hc & Hf & Ho & _ & Hu).
  exists all_rows, w'. by repeat split.
Qed.

(** X14.  Collecting over two lists of sites put end to end is collecting over
    the first, then over the second from the world the first has left, and
    putting the rows end to end. *)
Theorem collect_app
    (sites1 sites2 : list string) (max_per_site : Z) (w : world) :
  exists rows1 w1 rows2 w2,
    collect sites1 max_per_site w = (Ok rows1, w1)
    ∧ collect sites2 max_per_site w1 = (Ok rows2, w2)
    ∧ collect (sites1 ++ sites2) max_per_site w
      = (Ok (rows1 ++ rows2)%list, w2).
Proof.
  revert w.
  induction sites1 as [|site sites1 IH]; intros w.
  - destruct (collect_run sites2 max_per_site w) as (rows2 & w2 & Hc & _).
    exists [], w, rows2, w2. by repeat split.
  - destruct (collect_cons site sites1 max_per_site w)
      as (rows & wa & rest & wb & Hs & Hc & Hall).
    destruct (collect_cons site (sites1 ++ sites2) max_per_site w)
      as (rows' & wa' & rest' & wb' & Hs' & Hc' & Hall').
    rewrite Hs in Hs'. injection Hs' as <- <-.
    destruct (IH wa) as (r1 & w1 & r2 & w2 & H1 & H2 & H12).
    rewrite Hc in H1. injection H1 as <- <-.
    rewrite Hc' in H12. injection H12 as -> ->.
    exists (rows ++ rest)%list, wb, r2, w2.
    split; [exact Hall|]. split; [exact H2|].
    simpl. rewrite Hall'. by rewrite app_assoc.
Qed.

(** *** The writer and the run *)

Lemma csv_path_ne_jsonl_path (base_name : string) :
  base_name ++ ".csv" ≠ base_name ++ ".jsonl".
Proof.
  induction base_name as [|c base IH]; simpl; [done|].
  intros H. injection H as H. by apply IH.
Qed.

Lemma save_outputs_spec (rows : list row) (base_name : string) (w : world) :
  rows ≠ [] ->
  save_outputs rows base_name w
  = let csv_path := base_name ++ ".csv" in
    let jsonl_path := base_name ++ ".jsonl" in
    match write_error csv_path with
    | Some e => (Raise e, w)
    | None =>
        let w1 := put_line ("[OK] CSV salvo em: " ++ csv_path)
                    (put_file csv_path (to_csv rows) w) in
        match write_error jsonl_path with
        | Some e => (Raise e, w1)
        | None =>
            (Ok tt,
             put_line ("[OK] JSONL salvo em: " ++ jsonl_path)
               (put_file jsonl_path (jsonl_content rows) w1))
        end
    end.
Proof.
  intros Hne. destruct rows as [|r rows]; [done|].
  unfold save_outputs, write_file, bind, print, effect, raise. simpl.
  destruct (write_error (base_name ++ ".csv")); [done|]. simpl.
  by destruct (write_error (base_name ++ ".jsonl")).
Qed.

(** X15.  For a list that is not empty and with both writes going through,
    [save_outputs] leaves exactly two new or replaced files, the table and
    the line-delimited one, both made from the same rows, touches no other
    file, and prints one line for each. *)
Theorem save_outputs_writes_both
    (rows : list row) (base_name : string) (w : world) :
  rows ≠ [] ->
  write_error (base_name ++ ".csv") = None ->
  write_error (base_name ++ ".jsonl") = None ->
  exists w',
    save_outputs rows base_name w = (Ok tt, w')
    ∧ files w' !! (base_name ++ ".csv") = Some (to_csv rows)
    ∧ files w' !! (base_name ++ ".jsonl") = Some (jsonl_content rows)
    ∧ (forall p, p ≠ base_name ++ ".csv" -> p ≠ base_name ++ ".jsonl" ->
                 files w' !! p = files w !! p)
    ∧ stdout w'
      = (stdout w
         ++ [("[OK] CSV salvo em: " ++ base_name ++ ".csv")%string;
             ("[OK] JSONL salvo em: " ++ base_name ++ ".jsonl")%string])%list
    ∧ events w' = events w.
Proof.
  intros Hne Hcsv Hjsonl.
  rewrite save_outputs_spec by done. simpl. rewrite Hcsv, Hjsonl.
  eexists. split; [reflexivity|]. simpl.
  pose proof (csv_path_ne_jsonl_path base_name) as Hp.
  split; [|split; [|split; [|split]]].
  - rewrite lookup_insert_ne by done. apply lookup_insert_eq.
  - apply lookup_insert_eq.
  - intros p H1 H2. by rewrite !lookup_insert_ne.
  - by rewrite <- app_assoc.
  - reflexivity.
Qed.

(** X16.  A failed write leaves [save_outputs] as an exception.  When it is the
    first write, the second file is not attempted and nothing is printed;
    when it is the second, the table stays written and announced. *)
Theorem save_outputs_write_failure
    (rows : list row) (base_name : string) (w : world) (e : exn) :
  rows ≠ [] ->
  (write_error (base_name ++ ".csv") = Some e ->
   exists w',
     save_outputs rows base_name w = (Raise e, w')
     ∧ files w' !! (base_name ++ ".jsonl") = files w !! (base_name ++ ".jsonl")
     ∧ stdout w' = stdout w)
  ∧ (write_error (base_name ++ ".csv") = None ->
     write_error (base_name ++ ".jsonl") = Some e ->
     exists w',
       save_outputs rows base_name w = (Raise e, w')
       ∧ files w' !! (base_name ++ ".csv") = Some (to_csv rows)
       ∧ stdout w'
         = (stdout w
            ++ [("[OK] CSV salvo em: " ++ base_name ++ ".csv")%string])%list).
Proof.
  intros Hne. split.
  - intros Hcsv. rewrite save_outputs_spec by done. simpl. rewrite Hcsv.
    by exists w.
  - intros Hcsv Hjsonl. rewrite save_outputs_spec by done. simpl.
    rewrite Hcsv, Hjsonl. eexists. split; [reflexivity|]. simpl.
    split; [apply lookup_insert_eq | done].
Qed.

Lemma append_empty_r (s : string) : s ++ "" = s.
Proof.
  induction s as [|c s IH]; [done|].
  change (String c (s ++ "") = String c s). congruence.
Qed.

Lemma append_assoc (s1 s2 s3 : string) : (s1 ++ s2) ++ s3 = s1 ++ (s2 ++ s3).
Proof.
  induction s1 as [|c s1 IH]; [done|].
  change (String c ((s1 ++ s2) ++ s3) = String c (s1 ++ (s2 ++ s3))).
  congruence.
Qed.

Lemma lines_from_line (x cur rest : string) :
  one_line x = true ->
  lines_from cur (x ++ newline ++ rest) = (cur ++ x) :: lines_from "" rest.
Proof.
  revert cur.
  induction x as [|c x IH]; intros cur Hx.
  - change (lines_from cur (String (ascii_of_nat 10) rest)
            = (cur ++ "") :: lines_from "" rest).
    by rewrite append_empty_r.
  - simpl in Hx. apply andb_prop in Hx as [Hc Hx].
    apply negb_true_iff in Hc.
    change (lines_from cur (String c (x ++ newline ++ rest))
            = (cur ++ String c x) :: lines_from "" rest).
    simpl. rewrite Hc. rewrite IH by done. f_equal.
    by rewrite append_assoc.
Qed.

Lemma jsonl_content_cons (r : row) (rows : list row) :
  jsonl_content (r :: rows) = json_dumps r ++ newline ++ jsonl_content rows.
Proof.
  unfold jsonl_content.
  destruct rows as [|r' rows].
  - change (json_dumps r ++ newline = json_dumps r ++ newline ++ "").
    by rewrite (append_empty_r newline).
  - change (String.concat "" (map (fun r => json_dumps r ++ newline)
                                 (r :: r' :: rows)))
      with ((json_dumps r ++ newline)
            ++ ""
            ++ String.concat "" (map (fun r => json_dumps r ++ newline)
                                   (r' :: rows))).
    rewrite append_assoc. reflexivity.
Qed.

Lemma lines_jsonl_content (rows : list row) :
  Forall (fun r => one_line (json_dumps r) = true) rows ->
  lines (jsonl_content rows) = map json_dumps rows.
Proof.
  unfold lines.
  induction 1 as [|r rows Hr _ IH]; [done|].
  rewrite jsonl_content_cons, lines_from_line by done.
  simpl. by rewrite IH.
Qed.

(** X17.  Reading back the line-delimited file: when no serialized row has a
    newline in it, the lines of the file [save_outputs] has written are the
    serialized rows, one line for each row, in the order of the list. *)
Theorem jsonl_file_lines (rows : list row) (base_name : string) (w : world) :
  rows ≠ [] ->
  write_error (base_name ++ ".csv") = None ->
  write_error (base_name ++ ".jsonl") = None ->
  Forall (fun r => one_line (json_dumps r) = true) rows ->
  exists w' content,
    save_outputs rows base_name w = (Ok tt, w')
    ∧ files w' !! (base_name ++ ".jsonl") = Some content
    ∧ lines content = map json_dumps rows
    ∧ length (lines content) = length rows.
Proof.
  intros Hne Hcsv Hjsonl Hlines.
  rewrite save_outputs_spec by done. simpl. rewrite Hcsv, Hjsonl.
  eexists _, (jsonl_content rows). split; [reflexivity|]. simpl.
  split; [apply lookup_insert_eq|].
  rewrite lines_jsonl_content by done.
  split; [done | apply length_map].
Qed.

Lemma main_on_save (sites : list string) (max_per_site : Z) (w : world) :
  exists all_rows w1 w2,
    collect sites max_per_site w = (Ok all_rows, w1)
    ∧ files w2 = files w
    ∧ stdout w2
      = (stdout w ++ flat_map site_message sites
         ++ [("[INFO] Total coletado: "
              ++ Fmt.decimal (Z.of_nat (length all_rows))
              ++ " | Após dedup: "
              ++ Fmt.decimal (Z.of_nat (length (dedup all_rows))))%string])%list
    ∧ main_on sites max_per_site w
      = save_outputs (dedup all_rows) (base_name_at w1) w2.
Proof.
  destruct (main_on_spec sites max_per_site w)
    as (all_rows & w1 & Hc & Hf & Hm).
  destruct (collect_run sites max_per_site w)
    as (all_rows' & w1' & Hc' & _ & Ho & _).
  rewrite Hc in Hc'. injection Hc' as <- <-.
  eexists all_rows, w1, _. split; [exact Hc|].
  split; [|split; [|exact Hm]].
  - exact Hf.
  - simpl. rewrite Ho. by rewrite <- app_assoc.
Qed.

(** X18.  A run ends normally unless a write fails: with both writes going
    through [main] returns for every list of sites, every bound and
    whatever the sites do; and an exception that leaves [main] is the one
    raised by writing one of its two files. *)
Theorem main_on_raises_only_write_errors
    (sites : list string) (max_per_site : Z) (w : world) :
  ((forall p, write_error p = None) ->
   exists w', main_on sites max_per_site w = (Ok tt, w'))
  ∧ (forall e w',
        main_on sites max_per_site w = (Raise e, w') ->
        exists w1 all_rows,
          collect sites max_per_site w = (Ok all_rows, w1)
          ∧ dedup all_rows ≠ []
          ∧ (write_error (base_name_at w1 ++ ".csv") = Some e
             ∨ write_error (base_name_at w1 ++ ".jsonl") = Some e)).
Proof.
  destruct (main_on_save sites max_per_site w)
    as (all_rows & w1 & w2 & Hc & _ & _ & Hm).
  rewrite Hm. split.
  - intros Hok. destruct (dedup all_rows) as [|r rows] eqn:Hd.
    + eexists. reflexivity.
    + rewrite save_outputs_spec by done. simpl. rewrite !Hok. eauto.
  - intros e w' Hraise. exists w1, all_rows. split; [exact Hc|].
    destruct (dedup all_rows) as [|r rows] eqn:Hd; [done|].
    split; [done|].
    rewrite save_outputs_spec in Hraise by done. simpl in Hraise.
    destruct (write_error (base_name_at w1 ++ ".csv")) as [e1|].
    { left. congruence. }
    destruct (write_error (base_name_at w1 ++ ".jsonl")) as [e2|]; [|done].
    right. congruence.
Qed.

(** X19.  The files of a run: with both writes going through, a run that keeps
    no row leaves the files as they were, and a run that keeps some writes
    the deduplicated rows of all sites into the table and into the
    line-delimited file named after the minute the collecting ended, and
    touches no other file. *)
Theorem main_on_files (sites : list string) (max_per_site : Z) (w : world) :
  (forall p, write_error p = None) ->
  exists all_rows w1 w',
    collect sites max_per_site w = (Ok all_rows, w1)
    ∧ main_on sites max_per_site w = (Ok tt, w')
    ∧ files w'
      = match dedup all_rows with
        | [] => files w
        | _ =>
            <[ base_name_at w1 ++ ".jsonl" := jsonl_content (dedup all_rows) ]>
              (<[ base_name_at w1 ++ ".csv" := to_csv (dedup all_rows) ]>
                 (files w))
        end.
Proof.
  intros Hok.
  destruct (main_on_save sites max_per_site w)
    as (all_rows & w1 & w2 & Hc & Hf & _ & Hm).
  exists all_rows, w1. rewrite Hm.
  destruct (dedup all_rows) as [|r rows] eqn:Hd.
  - eexists. split; [exact Hc|]. split; [reflexivity|]. exact Hf.
  - rewrite save_outputs_spec by done. simpl. rewrite !Hok.
    eexists. split; [exact Hc|]. split; [reflexivity|].
    simpl. by rewrite Hf.
Qed.

End PipelineMore.

(** ** The further statements at work on the small run *)

Section ConcreteMore.

Lemma dedup_fixed_iff_witness :
  NoDup (urls (dedup Demo.two_sites))
  ∧ dedup (dedup Demo.two_sites) = dedup Demo.two_sites.
Proof.
  assert (H : NoDup (urls (dedup Demo.two_sites))).
  { apply (bool_decide_unpack _). vm_compute. exact I. }
  split; [exact H|].
  exact (proj2 (dedup_fixed_iff (dedup Demo.two_sites)) H).
Defined.


Lemma scrape_site_bounded_witness :
  0 <= 2
  ∧ exists out w',
      @scrape_site Demo.env "https://a.example" 2 Demo.start = (Ok out, w')
      ∧ (length out <= Z.to_nat 2)%nat
      ∧ (length (filter (fun ev => is_download ev = true)
                   (drop (length (events Demo.start)) (events w')))
         <= Z.to_nat 2)%nat.
Proof.
  assert (H : 0 <= 2) by lia.
  split; [exact H|].
  destruct (@scrape_site_bounded Demo.env "https://a.example" 2 Demo.start)
    as (out & w' & Hrun & _ & Hb & _).
  exists out, w'. split; [exact Hrun|]. exact (Hb H).
Defined.

Lemma scrape_site_output_witness :
  exists out w',
    @scrape_site Demo.env "https://a.example" MAX_PER_SITE Demo.start
    = (Ok out, w')
    ∧ out ≠ []
    ∧ stdout w' = stdout Demo.start.
Proof.
  destruct (@scrape_site_output Demo.env "https://a.example" MAX_PER_SITE
              Demo.start) as (out & w' & Hrun & _ & _ & _ & Hquiet).
  assert (Hne : out ≠ []).
  { pose proof Hrun as Hc. vm_compute in Hc. injection Hc as <- _. done. }
  exists out, w'. split; [exact Hrun|]. split; [exact Hne|].
  exact (Hquiet Hne).
Defined.

Lemma scrape_site_nonpositive_bound_witness :
  (exists w',
      @scrape_site Demo.env "https://a.example" 0 Demo.start = (Ok [], w')
      ∧ events w' = [EvBuild "https://a.example"])
  ∧ -3 < 0
  ∧ @candidates Demo.env "https://a.example" (-3) = [Demo.blank].
Proof.
  pose proof (@scrape_site_nonpositive_bound Demo.env "https://a.example" 0
                Demo.start) as [Hzero _].
  pose proof (@scrape_site_nonpositive_bound Demo.env "https://a.example" (-3)
                Demo.start) as [_ Hneg].
  assert (H : -3 < 0) by lia.
  split; [exact (Hzero eq_refl)|]. split; [exact H|].
  exact (Hneg H _ eq_refl).
Defined.

Lemma row_with_title_or_text_is_kept_witness :
  @extracted Demo.env Demo.short = true
  ∧ or_str (art_title Demo.short) "" ≠ ""
  ∧ or_str (art_text Demo.short) "" = ""
  ∧ exists data,
      @scrape_one Demo.env Demo.short [] Demo.start
      = (Ok [data], after_sleep (after_download Demo.short Demo.start))
      ∧ text data = "".
Proof.
  assert (H1 : @extracted Demo.env Demo.short = true) by reflexivity.
  assert (H2 : or_str (art_title Demo.short) "" ≠ "") by done.
  split; [exact H1|]. split; [exact H2|]. split; [reflexivity|].
  destruct (@row_with_title_or_text_is_kept Demo.env Demo.short []
              Demo.start H1 (or_introl H2)) as (data & Hone & _ & Ht & _).
  exists data. split; [exact Hone | exact Ht].
Defined.


Lemma collect_trace_witness :
  0 <= MAX_PER_SITE
  ∧ exists all_rows w' new,
      @collect Demo.env ["https://zzz.example"; "https://a.example"]
        MAX_PER_SITE Demo.start = (Ok all_rows, w')
      ∧ events w' = new
      ∧ (length (filter (fun ev => is_download ev = true) new)
         <= Z.to_nat MAX_PER_SITE * 2)%nat.
Proof.
  assert (H : 0 <= MAX_PER_SITE) by (vm_compute; discriminate).
  split; [exact H|].
  destruct (@collect_trace Demo.env ["https://zzz.example"; "https://a.example"]
              MAX_PER_SITE Demo.start)
    as (all_rows & w' & new & Hc & Hev & _ & _ & _ & Hb).
  exists all_rows, w', new. split; [exact Hc|]. split; [exact Hev|].
  exact (Hb H).
Defined.

Lemma save_outputs_writes_both_witness :
  Demo.two_sites ≠ []
  ∧ exists w',
      @save_outputs Demo.env Demo.two_sites "news_out" Demo.start = (Ok tt, w')
      ∧ files w' !! "news_out.csv" = Some (@to_csv Demo.env Demo.two_sites)
      ∧ files w' !! "news_out.jsonl"
        = Some (@jsonl_content Demo.env Demo.two_sites).
Proof.
  assert (H : Demo.two_sites ≠ []) by done.
  split; [exact H|].
  destruct (@save_outputs_writes_both Demo.env Demo.two_sites "news_out"
              Demo.start H eq_refl eq_refl) as (w' & Hrun & H1 & H2 & _).
  exists w'. split; [exact Hrun|]. split; [exact H1 | exact H2].
Defined.

Lemma save_outputs_write_failure_witness :
  (exists w',
      @save_outputs DemoDisk.read_only Demo.two_sites "news_out" Demo.start
      = (Raise DemoDisk.denied, w')
      ∧ stdout w' = stdout Demo.start)
  ∧ (exists w',
        @save_outputs DemoDisk.no_jsonl Demo.two_sites "news_out" Demo.start
        = (Raise DemoDisk.denied, w')
        ∧ files w' !! "news_out.csv"
          = Some (@to_csv DemoDisk.no_jsonl Demo.two_sites)).
Proof.
  assert (H : Demo.two_sites ≠ []) by done.
  split.
  - destruct (proj1 (@save_outputs_write_failure DemoDisk.read_only
                       Demo.two_sites "news_out" Demo.start DemoDisk.denied H)
                eq_refl) as (w' & Hrun & _ & Hout).
    exists w'. split; [exact Hrun | exact Hout].
  - destruct (proj2 (@save_outputs_write_failure DemoDisk.no_jsonl
                       Demo.two_sites "news_out" Demo.start DemoDisk.denied H)
                eq_refl eq_refl) as (w' & Hrun & Hcsv & _).
    exists w'. split; [exact Hrun | exact Hcsv].
Defined.

Lemma jsonl_file_lines_witness :
  Forall (fun r => one_line (@json_dumps Demo.env r) = true) Demo.two_sites
  ∧ exists w' content,
      @save_outputs Demo.env Demo.two_sites "news_out" Demo.start = (Ok tt, w')
      ∧ files w' !! "news_out.jsonl" = Some content
      ∧ lines content = ["u1"; "u2"; "u2"; "u3"].
Proof.
  assert (H : Forall (fun r => one_line (@json_dumps Demo.env r) = true)
                Demo.two_sites) by (repeat constructor).
  split; [exact H|].
  destruct (@jsonl_file_lines Demo.env Demo.two_sites "news_out" Demo.start
              ltac:(done) eq_refl eq_refl H)
    as (w' & content & Hrun & Hfile & Hlines & _).
  exists w', content. split; [exact Hrun|]. split; [exact Hfile|].
  exact Hlines.
Defined.

Lemma main_on_raises_only_write_errors_witness :
  (forall p, @write_error Demo.env p = None)
  ∧ (exists w',
        @main_on Demo.env ["https://a.example"; "https://b.example"]
          MAX_PER_SITE Demo.start = (Ok tt, w'))
  ∧ exists w' w1 all_rows,
      @main_on DemoDisk.read_only ["https://a.example"] MAX_PER_SITE Demo.start
      = (Raise DemoDisk.denied, w')
      ∧ @collect DemoDisk.read_only ["https://a.example"] MAX_PER_SITE
          Demo.start = (Ok all_rows, w1)
      ∧ dedup all_rows ≠ [].
Proof.
  assert (H : forall p, @write_error Demo.env p = None) by done.
  split; [exact H|]. split.
  - exact (proj1 (@main_on_raises_only_write_errors Demo.env
                    ["https://a.example"; "https://b.example"] MAX_PER_SITE
                    Demo.start) H).
  - destruct (@main_on DemoDisk.read_only ["https://a.example"] MAX_PER_SITE
                Demo.start) as [res w'] eqn:Hrun.
    assert (Hres : res = Raise DemoDisk.denied).
    { pose proof Hrun as Hc. vm_compute in Hc. by injection Hc as <- _. }
    subst res.
    destruct (proj2 (@main_on_raises_only_write_errors DemoDisk.read_only
                       ["https://a.example"] MAX_PER_SITE Demo.start)
                _ _ Hrun) as (w1 & all_rows & Hc & Hne & _).
    exists w', w1, all_rows. split; [reflexivity|]. split; [exact Hc|].
    exact Hne.
Defined.

Lemma main_on_files_witness :
  (forall p, @write_error Demo.env p = None)
  ∧ exists all_rows w1 w',
      @collect Demo.env ["https://d.example"; "https://zzz.example"]
        MAX_PER_SITE Demo.start = (Ok all_rows, w1)
      ∧ @main_on Demo.env ["https://d.example"; "https://zzz.example"]
          MAX_PER_SITE Demo.start = (Ok tt, w')
      ∧ files w' = files Demo.start.
Proof.
  assert (H : forall p, @write_error Demo.env p = None) by done.
  split; [exact H|].
  destruct (@main_on_files Demo.env ["https://d.example"; "https://zzz.example"]
              MAX_PER_SITE Demo.start H)
    as (all_rows & w1 & w' & Hc & Hm & Hf).
  exists all_rows, w1, w'. split; [exact Hc|]. split; [exact Hm|].
  assert (Hnone : all_rows = []).
  { pose proof Hc as Hc'. vm_compute in Hc'. by injection Hc' as <- _. }
  subst all_rows. exact Hf.
Defined.

End ConcreteMore.
